(** * The invocation bridge of the AI Outbound Operator MCP server

    A shallow embedding of [src/server.py]: the module-level session
    identity, the bridge function [_api], the sixteen registered tools, and
    the parts of Python's [json] and of [requests] that the bridge calls.

    Conventions of the embedding.
    - A Python [str] is the list of its code points ([list N]).
    - The process is a [World]: the global [_session_user_id] and the list
      of calls made to [requests.request] so far (most recent first).
    - Python code runs in [Py], a state-and-exception monad over [World].
    - The backend is any function from the history of calls of
      [requests.request] to a reply; one call is one entry of that history.
      The HTTP requests a call makes of the backend (one more for every
      redirect the library follows) are the subject of [resolve_redirects].
    - JSON-able Python values are [json]; Python floats are not part of it,
      so nothing here speaks of a number with a fraction or an exponent.
      The digit limit of [int] is part of the decoder; the interpreter's
      recursion limit is not, so nothing here speaks of values nested more
      deeply than the encoder and the decoder can follow either. *)

From Stdlib Require Import ZArith NArith List String Ascii Lia Bool.
From stdpp Require Import gmap list.

Local Open Scope N_scope.
#[local] Set Warnings "-register-all".

(** ** Python strings *)

Abbreviation str := (list N) (only parsing).

(** The code points of an ASCII literal. *)
Definition py (s : string) : str :=
  map N_of_ascii (list_ascii_of_string s).

(** [if s:] on a [str | None]. *)
Definition truthy (s : option str) : bool :=
  match s with
  | Some (_ :: _) => true
  | _ => false
  end.

(** ** JSON-able values *)

Inductive json : Type :=
| JNull
| JBool (b : bool)
| JInt (z : Z)
| JStr (s : str)
| JList (items : list json)
| JDict (pairs : list (str * json)).

(** [d[k] = v] on an insertion-ordered dict. *)
Fixpoint dict_set (d : list (str * json)) (k : str) (v : json)
  : list (str * json) :=
  match d with
  | [] => [(k, v)]
  | (k', v') :: d' =>
      if decide (k' = k) then (k, v) :: d' else (k', v') :: dict_set d' k v
  end.

(** [dict(pairs)]. *)
Definition dict_of_pairs (ps : list (str * json)) : list (str * json) :=
  fold_left (fun d kv => dict_set d (fst kv) (snd kv)) ps [].

(** ** [json.dumps(value, indent=2)] *)

(** [int.__repr__] on a natural number, most significant digit first. *)
Fixpoint digits_of (fuel : nat) (n : N) (acc : str) : str :=
  match fuel with
  | O => acc
  | S fuel' =>
      let acc' := (48 + n mod 10) :: acc in
      if n <? 10 then acc' else digits_of fuel' (n / 10) acc'
  end.

Definition str_of_N (n : N) : str := digits_of (S (N.to_nat (N.log2 n))) n [].

Definition str_of_int (z : Z) : str :=
  match z with
  | Zneg p => 45 :: str_of_N (Npos p)
  | _ => str_of_N (Z.to_N z)
  end.

(** One lowercase hexadecimal digit. *)
Definition hex_digit (d : N) : N := if d <? 10 then 48 + d else 87 + d.

(** ['\\u{0:04x}'.format(n)] *)
Definition escape_u (n : N) : str :=
  [92; 117; hex_digit (n / 4096 mod 16); hex_digit (n / 256 mod 16);
   hex_digit (n / 16 mod 16); hex_digit (n mod 16)].

(** The replacement of one character by [py_encode_basestring_ascii]:
    the short escapes of [ESCAPE_DCT], printable ASCII as it is, [\uXXXX]
    for the rest, a surrogate pair above the basic plane. *)
Definition escape_char (c : N) : str :=
  if c =? 34 then [92; 34]
  else if c =? 92 then [92; 92]
  else if c =? 8 then [92; 98]
  else if c =? 12 then [92; 102]
  else if c =? 10 then [92; 110]
  else if c =? 13 then [92; 114]
  else if c =? 9 then [92; 116]
  else if (32 <=? c) && (c <=? 126) then [c]
  else if c <? 65536 then escape_u c
  else
    let n := c - 65536 in
    let s1 := N.lor 55296 (N.land (N.shiftr n 10) 1023) in
    let s2 := N.lor 56320 (N.land n 1023) in
    escape_u s1 ++ escape_u s2.

Definition encode_basestring_ascii (s : str) : str :=
  34 :: flat_map escape_char s ++ [34].

(** ['\n' + ' ' * (2 * level)] *)
Definition newline_indent (level : nat) : str :=
  10 :: repeat 32 (2 * level)%nat.

(** [_iterencode] with [indent=2]: the item separator is [","] and the key
    separator [": "]; an empty list or dict is written without a line break. *)
Fixpoint iterencode (level : nat) (v : json) : str :=
  match v with
  | JNull => py "null"
  | JBool true => py "true"
  | JBool false => py "false"
  | JInt z => str_of_int z
  | JStr s => encode_basestring_ascii s
  | JList [] => py "[]"
  | JList (x :: xs) =>
      91 :: newline_indent (S level) ++ iterencode (S level) x
      ++ (fix rest (l : list json) : str :=
            match l with
            | [] => []
            | y :: l' =>
                44 :: newline_indent (S level) ++ iterencode (S level) y
                ++ rest l'
            end) xs
      ++ newline_indent level ++ [93]
  | JDict [] => py "{}"
  | JDict ((k, x) :: ps) =>
      123 :: newline_indent (S level) ++ encode_basestring_ascii k
      ++ [58; 32] ++ iterencode (S level) x
      ++ (fix rest (l : list (str * json)) : str :=
            match l with
            | [] => []
            | (k', y) :: l' =>
                44 :: newline_indent (S level) ++ encode_basestring_ascii k'
                ++ [58; 32] ++ iterencode (S level) y ++ rest l'
            end) ps
      ++ newline_indent level ++ [125]
  end.

Definition json_dumps (v : json) : str := iterencode 0 v.

(** ** [requests] *)

(** The keyword arguments the tools pass through [_api]. *)
Record Kwargs := {
  kw_headers : option (gmap str str);
  kw_params : option (gmap str str);
  kw_json : option json;
}.

Definition no_kwargs : Kwargs :=
  {| kw_headers := None; kw_params := None; kw_json := None |}.

(** One call of [requests.request(method, url, headers=..., timeout=...,
    params=..., json=...)]. *)
Record Request := {
  req_method : str;
  req_url : str;
  req_headers : gmap str str;
  req_timeout : Z;
  req_params : option (gmap str str);
  req_json : option json;
}.

(** A [requests.Response]: [json_body] is what [resp.json()] gives, [None]
    when it raises instead: the body is not JSON, or it is and the decoder
    refuses it (see [json_loads]). *)
Record Response := {
  status_code : Z;
  reason : str;
  url : str;
  json_body : option json;
}.

(** The exceptions of [requests] raised by the bridge's calls;
    [JSONDecodeError] stands for whatever [resp.json()] raises. *)
Inductive Exn : Type :=
| HTTPError (msg : str) (response : Response)
| Timeout
| ConnectionError
| TooManyRedirects
| JSONDecodeError.

(** What one call of [requests.request] comes to: the response it
    returns, the last one when redirects were followed, or the exception
    it raises. *)
Inductive Reply : Type :=
| Answered (resp : Response)
| Failed (e : Exn).

(** ** The process state and the monad of Python code *)

Record World := {
  _session_user_id : option str;
  wire : list Request;
}.

(** Module load: [_session_user_id: str | None = None], nothing sent. *)
Definition boot : World := {| _session_user_id := None; wire := [] |}.

Inductive Outcome (A : Type) : Type :=
| Returned (a : A)
| Raised (e : Exn).
Arguments Returned {A} a.
Arguments Raised {A} e.

Definition Py (A : Type) : Type := World -> Outcome A * World.

Definition ret {A} (a : A) : Py A := fun w => (Returned a, w).

Definition raise {A} (e : Exn) : Py A := fun w => (Raised e, w).

Definition bind {A B} (m : Py A) (k : A -> Py B) : Py B :=
  fun w =>
    match m w with
    | (Returned a, w') => k a w'
    | (Raised e, w') => (Raised e, w')
    end.

Notation "'let*' x ':=' m 'in' k" := (bind m (fun x => k))
  (at level 10, x binder, k at level 200).

Definition get_session : Py (option str) :=
  fun w => (Returned (_session_user_id w), w).

Definition set_session (u : option str) : Py unit :=
  fun w => (Returned tt, {| _session_user_id := u; wire := wire w |}).

Section Server.

(** [API_BASE] and [INTERNAL_KEY] are read from the environment at module
    load; [backend] is the service at the other end of the wire, given the
    requests made so far, the current one first. *)
Variable API_BASE : str.
Variable INTERNAL_KEY : str.
Variable backend : list Request -> Reply.

(** [requests.request], seen from the caller: the call and its arguments
    are recorded in [wire], then the call raises, or returns a response
    whatever its status. What the library does for one call (the headers
    it adds, the redirects it follows) is not the caller's: [wire] has one
    entry for each call, not one for each HTTP request. *)
Definition requests_request (method url : str) (headers : gmap str str)
    (timeout : Z) (kw : Kwargs) : Py Response :=
  fun w =>
    let r := {| req_method := method; req_url := url; req_headers := headers;
                req_timeout := timeout; req_params := kw_params kw;
                req_json := kw_json kw |} in
    let w' := {| _session_user_id := _session_user_id w;
                 wire := r :: wire w |} in
    match backend (r :: wire w) with
    | Answered resp => (Returned resp, w')
    | Failed e => (Raised e, w')
    end.

(** [Response.raise_for_status]: an [HTTPError] for 4xx and 5xx, nothing
    for any other status. *)
Definition raise_for_status (resp : Response) : Py unit :=
  if (400 <=? status_code resp)%Z && (status_code resp <? 500)%Z then
    raise (HTTPError (str_of_int (status_code resp) ++ py " Client Error: "
                        ++ reason resp ++ py " for url: " ++ url resp) resp)
  else if (500 <=? status_code resp)%Z && (status_code resp <? 600)%Z then
    raise (HTTPError (str_of_int (status_code resp) ++ py " Server Error: "
                        ++ reason resp ++ py " for url: " ++ url resp) resp)
  else ret tt.

(** [Response.json] *)
Definition Response_json (resp : Response) : Py json :=
  match json_body resp with
  | Some v => ret v
  | None => raise JSONDecodeError
  end.

(** [_api], src/server.py lines 35-49. *)
Definition _api (method path : str) (user_id : option str) (kwargs : Kwargs)
  : Py json :=
  let* _ := (if truthy user_id then set_session user_id else ret tt) in
  let url := API_BASE ++ path in
  let headers := default ∅ (kw_headers kwargs) in
  let headers := <[py "X-Internal-Key" := INTERNAL_KEY]> headers in
  let* session := get_session in
  let headers :=
    match session with
    | Some (c :: s) => <[py "X-User-Id" := c :: s]> headers (* truthy *)
    | _ => headers
    end in
  let* resp := requests_request method url headers 30 kwargs in
  let* _ := raise_for_status resp in
  Response_json resp.

Definition json_kw (body : json) : Kwargs :=
  {| kw_headers := None; kw_params := None; kw_json := Some body |}.

Definition params_kw (params : gmap str str) : Kwargs :=
  {| kw_headers := None; kw_params := Some params; kw_json := None |}.

Definition json_of_strs (l : list str) : json := JList (map JStr l).

(** *** Lead tools *)

Definition search_leads (user_id : str)
    (person_titles person_locations : option (list str))
    (q_keywords : option str)
    (organization_num_employees_ranges : option (list str)) : Py str :=
  let filters := [] in
  let filters :=
    match person_titles with
    | Some (t :: ts) => dict_set filters (py "person_titles") (json_of_strs (t :: ts))
    | _ => filters
    end in
  let filters :=
    match person_locations with
    | Some (t :: ts) => dict_set filters (py "person_locations") (json_of_strs (t :: ts))
    | _ => filters
    end in
  let filters :=
    match q_keywords with
    | Some (c :: s) => dict_set filters (py "q_keywords") (JStr (c :: s))
    | _ => filters
    end in
  let filters :=
    match organization_num_employees_ranges with
    | Some (t :: ts) =>
        dict_set filters (py "organization_num_employees_ranges")
          (json_of_strs (t :: ts))
    | _ => filters
    end in
  let* result := _api (py "POST") (py "/leads/search") (Some user_id)
              (json_kw (JDict [(py "filters", JDict filters)])) in
  ret (json_dumps result).

Definition enrich_lead (lead_id : str) : Py str :=
  let* result := _api (py "POST") (py "/leads/enrich/" ++ lead_id) None no_kwargs in
  ret (json_dumps result).

Definition list_leads (user_id : str) (temperature : option str) : Py str :=
  let params : gmap str str := ∅ in
  let params :=
    match temperature with
    | Some (c :: s) => <[py "temperature" := c :: s]> params
    | _ => params
    end in
  let* result := _api (py "GET") (py "/leads/list") (Some user_id) (params_kw params) in
  ret (json_dumps result).

Definition get_lead (lead_id : str) : Py str :=
  let* result := _api (py "GET") (py "/leads/" ++ lead_id) None no_kwargs in
  ret (json_dumps result).

Definition mark_do_not_contact (lead_id reason : str) : Py str :=
  let* result := _api (py "POST") (py "/leads/" ++ lead_id ++ py "/dnc") None
              (json_kw (JDict [(py "reason", JStr reason)])) in
  ret (json_dumps result).

(** *** Outreach tools *)

Definition draft_message (lead_id channel context : str) : Py str :=
  let* result := _api (py "POST") (py "/outreach/draft") None
              (json_kw (JDict [(py "lead_id", JStr lead_id);
                               (py "channel", JStr channel);
                               (py "context", JStr context)])) in
  ret (json_dumps result).

Definition send_email (lead_id subject content : str) : Py str :=
  let* result := _api (py "POST") (py "/outreach/send/email") None
              (json_kw (JDict [(py "lead_id", JStr lead_id);
                               (py "subject", JStr subject);
                               (py "content", JStr content)])) in
  ret (json_dumps result).

Definition send_sms (lead_id content : str) : Py str :=
  let* result := _api (py "POST") (py "/outreach/send/sms") None
              (json_kw (JDict [(py "lead_id", JStr lead_id);
                               (py "content", JStr content)])) in
  ret (json_dumps result).

Definition place_call (lead_id script callback_url : str) : Py str :=
  let* result := _api (py "POST") (py "/outreach/send/call") None
              (json_kw (JDict [(py "lead_id", JStr lead_id);
                               (py "script", JStr script);
                               (py "callback_url", JStr callback_url)])) in
  ret (json_dumps result).

Definition create_sequence (lead_id user_id channel : str) (num_steps : Z)
    (context : str) (auto_send : bool) : Py str :=
  let* result := _api (py "POST") (py "/outreach/sequence") (Some user_id)
              (json_kw (JDict [(py "lead_id", JStr lead_id);
                               (py "channel", JStr channel);
                               (py "num_steps", JInt num_steps);
                               (py "context", JStr context);
                               (py "auto_send", JBool auto_send)])) in
  ret (json_dumps result).

Definition outreach_history (lead_id : str) : Py str :=
  let* result := _api (py "GET") (py "/outreach/history/" ++ lead_id) None
              no_kwargs in
  ret (json_dumps result).

(** *** Intelligence tools *)

Definition classify_reply (reply_text : str) : Py str :=
  let* result := _api (py "POST") (py "/scoring/classify") None
              (json_kw (JDict [(py "reply_text", JStr reply_text)])) in
  ret (json_dumps result).

Definition process_reply (lead_id reply_text channel : str) : Py str :=
  let* result := _api (py "POST") (py "/scoring/process-reply") None
              (json_kw (JDict [(py "lead_id", JStr lead_id);
                               (py "reply_text", JStr reply_text);
                               (py "channel", JStr channel)])) in
  ret (json_dumps result).

Definition score_lead (lead_id : str) : Py str :=
  let* result := _api (py "POST") (py "/scoring/score/" ++ lead_id) None
              no_kwargs in
  ret (json_dumps result).

(** *** Notification tools *)

Definition get_hot_lead_notifications (user_id : str) : Py str :=
  let* result := _api (py "GET") (py "/notifications/hot-leads")
              (Some user_id) no_kwargs in
  ret (json_dumps result).

Definition summarize_pipeline (user_id : str) : Py str :=
  let* result := _api (py "GET") (py "/notifications/pipeline-summary")
              (Some user_id) no_kwargs in
  ret (json_dumps result).

End Server.

(** ** The tool registry *)

(** One invocation of a registered tool with its arguments; an argument
    that has a default in the signature is [None] when the caller leaves it
    out. *)
Inductive Call : Type :=
| Call_search_leads (user_id : str)
    (person_titles person_locations : option (list str))
    (q_keywords : option str)
    (organization_num_employees_ranges : option (list str))
| Call_enrich_lead (lead_id : str)
| Call_list_leads (user_id : str) (temperature : option str)
| Call_get_lead (lead_id : str)
| Call_mark_do_not_contact (lead_id : str) (reason : option str)
| Call_draft_message (lead_id channel : str) (context : option str)
| Call_send_email (lead_id subject content : str)
| Call_send_sms (lead_id content : str)
| Call_place_call (lead_id script callback_url : str)
| Call_create_sequence (lead_id user_id : str) (channel : option str)
    (num_steps : option Z) (context : option str) (auto_send : option bool)
| Call_outreach_history (lead_id : str)
| Call_classify_reply (reply_text : str)
| Call_process_reply (lead_id reply_text : str) (channel : option str)
| Call_score_lead (lead_id : str)
| Call_get_hot_lead_notifications (user_id : str)
| Call_summarize_pipeline (user_id : str).

(** The user identifier a call carries, for the tools that take one. *)
Definition call_user_id (c : Call) : option str :=
  match c with
  | Call_search_leads u _ _ _ _ => Some u
  | Call_list_leads u _ => Some u
  | Call_create_sequence _ u _ _ _ _ => Some u
  | Call_get_hot_lead_notifications u => Some u
  | Call_summarize_pipeline u => Some u
  | _ => None
  end.

Section Registry.

Variable API_BASE : str.
Variable INTERNAL_KEY : str.
Variable backend : list Request -> Reply.

(** Dispatch of a call to its handler, defaults filled in. *)
Definition invoke (c : Call) : Py str :=
  match c with
  | Call_search_leads u titles locations keywords ranges =>
      search_leads API_BASE INTERNAL_KEY backend u titles locations keywords
        ranges
  | Call_enrich_lead l => enrich_lead API_BASE INTERNAL_KEY backend l
  | Call_list_leads u t => list_leads API_BASE INTERNAL_KEY backend u t
  | Call_get_lead l => get_lead API_BASE INTERNAL_KEY backend l
  | Call_mark_do_not_contact l r =>
      mark_do_not_contact API_BASE INTERNAL_KEY backend l
        (default (py "manual") r)
  | Call_draft_message l ch ctx =>
      draft_message API_BASE INTERNAL_KEY backend l ch (default [] ctx)
  | Call_send_email l subj content =>
      send_email API_BASE INTERNAL_KEY backend l subj content
  | Call_send_sms l content => send_sms API_BASE INTERNAL_KEY backend l content
  | Call_place_call l script cb =>
      place_call API_BASE INTERNAL_KEY backend l script cb
  | Call_create_sequence l u ch n ctx auto =>
      create_sequence API_BASE INTERNAL_KEY backend l u
        (default (py "email") ch) (default 3%Z n) (default [] ctx)
        (default false auto)
  | Call_outreach_history l => outreach_history API_BASE INTERNAL_KEY backend l
  | Call_classify_reply t => classify_reply API_BASE INTERNAL_KEY backend t
  | Call_process_reply l t ch =>
      process_reply API_BASE INTERNAL_KEY backend l t (default (py "email") ch)
  | Call_score_lead l => score_lead API_BASE INTERNAL_KEY backend l
  | Call_get_hot_lead_notifications u =>
      get_hot_lead_notifications API_BASE INTERNAL_KEY backend u
  | Call_summarize_pipeline u =>
      summarize_pipeline API_BASE INTERNAL_KEY backend u
  end.

(** The server handles one invocation after the other; an exception ends
    the invocation, not the process. *)
Definition run (calls : list Call) (w : World) : World :=
  fold_left (fun w c => snd (invoke c w)) calls w.

End Registry.

(** ** Inside [requests.request]: the HTTP requests of one call

    [_api] leaves [allow_redirects] at its default, so [requests] sends
    the request of the call and, as long as the answer is a redirect (a
    status of [REDIRECT_STATI] with a [Location] header), another one to
    the address given, at most thirty times ([DEFAULT_REDIRECT_LIMIT]).
    Of the library's work around a request this keeps what decides how
    many requests reach the backend and with what method, address, headers
    and body; the [Location] is taken as an absolute URL, and the headers
    the library adds of its own, its checks of header values and its
    cookies are left out. *)










(** ** [json.loads]

    The decoder of CPython's [json.decoder] and [json.scanner], on the
    values of [json]: a number literal with a fraction or an exponent, and
    the constants [NaN] and [Infinity], denote floats and get no value
    here. *)

(** A character of [WHITESPACE]: space, tab, line feed, carriage return. *)
Definition is_ws (c : N) : bool :=
  (c =? 32) || (c =? 9) || (c =? 10) || (c =? 13).

Fixpoint skip_ws (s : str) : str :=
  match s with
  | c :: r => if is_ws c then skip_ws r else s
  | [] => []
  end.

Definition is_digit (c : N) : bool := (48 <=? c) && (c <=? 57).

Definition hex_value (c : N) : option N :=
  if is_digit c then Some (c - 48)
  else if (97 <=? c) && (c <=? 102) then Some (c - 87)
  else if (65 <=? c) && (c <=? 70) then Some (c - 55)
  else None.

(** [_decode_uXXXX]: four hexadecimal digits. *)
Definition decode_uXXXX (a b c d : N) : option N :=
  match hex_value a, hex_value b, hex_value c, hex_value d with
  | Some x3, Some x2, Some x1, Some x0 =>
      Some (((x3 * 16 + x2) * 16 + x1) * 16 + x0)
  | _, _, _, _ => None
  end.

Definition is_high_surrogate (c : N) : bool := (55296 <=? c) && (c <=? 56319).
Definition is_low_surrogate (c : N) : bool := (56320 <=? c) && (c <=? 57343).

(** The [BACKSLASH] table of one-letter escapes. *)
Definition backslash (e : N) : option N :=
  if e =? 34 then Some 34
  else if e =? 92 then Some 92
  else if e =? 47 then Some 47
  else if e =? 98 then Some 8
  else if e =? 102 then Some 12
  else if e =? 110 then Some 10
  else if e =? 114 then Some 13
  else if e =? 116 then Some 9
  else None.

Definition cons_char (c : N) (res : option (str * str)) : option (str * str) :=
  match res with
  | Some (k, r) => Some (c :: k, r)
  | None => None
  end.

(** [scanstring] (strict), from just after the opening quote: the decoded
    string and the text after the closing quote. *)
Fixpoint scanstring (s : str) : option (str * str) :=
  match s with
  | [] => None
  | c :: r =>
      if c =? 34 then Some ([], r)
      else if c =? 92 then
        match r with
        | [] => None
        | e :: r1 =>
            if e =? 117 then
              match r1 with
              | a :: b :: c' :: d :: r2 =>
                  match decode_uXXXX a b c' d with
                  | None => None
                  | Some uni =>
                      if is_high_surrogate uni then
                        match r2 with
                        | b1 :: u1 :: r2' =>
                            if (b1 =? 92) && (u1 =? 117) then
                              match r2' with
                              | a2 :: b2 :: c2 :: d2 :: r3 =>
                                  match decode_uXXXX a2 b2 c2 d2 with
                                  | None => None
                                  | Some uni2 =>
                                      if is_low_surrogate uni2 then
                                        cons_char
                                          (65536 + N.lor (N.shiftl (uni - 55296) 10)
                                                         (uni2 - 56320))
                                          (scanstring r3)
                                      else cons_char uni (scanstring r2)
                                  end
                              | _ => None
                              end
                            else cons_char uni (scanstring r2)
                        | _ => cons_char uni (scanstring r2)
                        end
                      else cons_char uni (scanstring r2)
                  end
              | _ => None
              end
            else
              match backslash e with
              | Some ch => cons_char ch (scanstring r1)
              | None => None
              end
        end
      else if c <? 32 then None
      else cons_char c (scanstring r)
  end.

(** The run of digits at the head of [s], read in base ten onto [acc]. *)
Fixpoint scan_digits (acc : N) (s : str) : N * str :=
  match s with
  | c :: r => if is_digit c then scan_digits (acc * 10 + (c - 48)) r else (acc, s)
  | [] => (acc, [])
  end.

(** Whether [s] starts with the fraction [\.[0-9]+] or the exponent
    [[eE][-+]?[0-9]+] of [NUMBER_RE]. *)
Definition float_tail (s : str) : bool :=
  match s with
  | c :: d :: r =>
      if c =? 46 then is_digit d
      else if (c =? 101) || (c =? 69) then
        if (d =? 45) || (d =? 43) then
          match r with
          | d' :: _ => is_digit d'
          | [] => false
          end
        else is_digit d
      else false
  | _ => false
  end.

(** The integer part of [NUMBER_RE]: a lone zero, or a non-zero digit
    and the digits after it. *)
Definition scan_natural (s : str) : option (N * str) :=
  match s with
  | d :: r =>
      if d =? 48 then Some (0, r)
      else if is_digit d then Some (scan_digits (d - 48) r)
      else None
  | [] => None
  end.

(** [sys.int_max_str_digits]: [int(s)] raises [ValueError] on a literal of
    more decimal digits than this. *)
Definition int_max_str_digits : nat := 4300.

(** The number of decimal digits of [n]. The literal of a JSON integer has
    no leading zero, so this is the number of digits of the literal. *)
Definition int_digits (n : N) : nat := length (str_of_N n).

Definition within_int_limit (n : N) : bool :=
  Nat.leb (int_digits n) int_max_str_digits.

(** [match_number] followed by [int(integer)]: no value for a float
    literal (see above), nor for an integer beyond the digit limit. *)
Definition scan_int (s : str) : option (Z * str) :=
  match s with
  | c :: r =>
      match (if c =? 45 then scan_natural r else scan_natural s) with
      | Some (n, r') =>
          if float_tail r' then None
          else if within_int_limit n then
            Some (if c =? 45 then (- Z.of_N n)%Z else Z.of_N n, r')
          else None
      | None => None
      end
  | [] => None
  end.

(** [s[idx:idx+len(lit)] == lit] *)
Fixpoint strip_prefix (lit s : str) : option str :=
  match lit, s with
  | [], _ => Some s
  | a :: lit', b :: s' => if a =? b then strip_prefix lit' s' else None
  | _ :: _, [] => None
  end.

(** [scan_once], [JSONArray] and [JSONObject]. [scan_items] starts at an
    item of a non-empty array, [scan_members] just after the opening quote
    of a key; both read up to the closing bracket. *)
Fixpoint scan_once (fuel : nat) (s : str) {struct fuel} : option (json * str) :=
  match fuel with
  | O => None
  | S fuel =>
      match s with
      | [] => None
      | c :: r =>
          if c =? 34 then
            match scanstring r with
            | Some (k, r') => Some (JStr k, r')
            | None => None
            end
          else if c =? 123 then
            match skip_ws r with
            | c1 :: r1 =>
                if c1 =? 125 then Some (JDict [], r1)
                else if c1 =? 34 then
                  match scan_members fuel r1 with
                  | Some (ps, r') => Some (JDict (dict_of_pairs ps), r')
                  | None => None
                  end
                else None
            | [] => None
            end
          else if c =? 91 then
            match skip_ws r with
            | c1 :: r1 =>
                if c1 =? 93 then Some (JList [], r1)
                else
                  match scan_items fuel (c1 :: r1) with
                  | Some (vs, r') => Some (JList vs, r')
                  | None => None
                  end
            | [] => None
            end
          else if c =? 110 then
            match strip_prefix (py "null") s with
            | Some r' => Some (JNull, r')
            | None => None
            end
          else if c =? 116 then
            match strip_prefix (py "true") s with
            | Some r' => Some (JBool true, r')
            | None => None
            end
          else if c =? 102 then
            match strip_prefix (py "false") s with
            | Some r' => Some (JBool false, r')
            | None => None
            end
          else
            match scan_int s with
            | Some (z, r') => Some (JInt z, r')
            | None => None
            end
      end
  end
with scan_items (fuel : nat) (s : str) {struct fuel}
  : option (list json * str) :=
  match fuel with
  | O => None
  | S fuel =>
      match scan_once fuel s with
      | Some (v, r) =>
          match skip_ws r with
          | c :: r1 =>
              if c =? 93 then Some ([v], r1)
              else if c =? 44 then
                match scan_items fuel (skip_ws r1) with
                | Some (vs, r') => Some (v :: vs, r')
                | None => None
                end
              else None
          | [] => None
          end
      | None => None
      end
  end
with scan_members (fuel : nat) (s : str) {struct fuel}
  : option (list (str * json) * str) :=
  match fuel with
  | O => None
  | S fuel =>
      match scanstring s with
      | Some (k, r) =>
          match skip_ws r with
          | c :: r1 =>
              if c =? 58 then
                match scan_once fuel (skip_ws r1) with
                | Some (v, r2) =>
                    match skip_ws r2 with
                    | c2 :: r3 =>
                        if c2 =? 125 then Some ([(k, v)], r3)
                        else if c2 =? 44 then
                          match skip_ws r3 with
                          | q :: r4 =>
                              if q =? 34 then
                                match scan_members fuel r4 with
                                | Some (ps, r') => Some ((k, v) :: ps, r')
                                | None => None
                                end
                              else None
                          | [] => None
                          end
                        else None
                    | [] => None
                    end
                | None => None
                end
              else None
          | [] => None
          end
      | None => None
      end
  end.

(** [JSONDecoder.decode]: one value, then nothing but whitespace. [None]
    is any failure: a text that is not JSON, an integer beyond the digit
    limit, and also any number with a fraction or an exponent, which
    Python reads as a float. *)
Definition json_loads (s : str) : option json :=
  match scan_once (length s) (skip_ws s) with
  | Some (v, r) =>
      match skip_ws r with
      | [] => Some v
      | _ :: _ => None
      end
  | None => None
  end.

(** *** Values as Python builds them

    The code points of a [str] are below [0x110000]; a string decoded from
    JSON never holds a high surrogate directly followed by a low one (the
    decoder joins them); the keys of a dict are distinct; an integer that
    comes out of the decoder is within the digit limit of [int]. *)
Fixpoint wf_str (s : str) : bool :=
  match s with
  | [] => true
  | c :: r =>
      (c <? 1114112)
      && negb (is_high_surrogate c
               && match r with
                  | c' :: _ => is_low_surrogate c'
                  | [] => false
                  end)
      && wf_str r
  end.

Fixpoint wf_json (v : json) : bool :=
  match v with
  | JInt z => within_int_limit (Z.abs_N z)
  | JStr s => wf_str s
  | JList l => forallb wf_json l
  | JDict ps =>
      forallb (fun kv => wf_str (fst kv) && wf_json (snd kv)) ps
      && bool_decide (NoDup (map fst ps))
  | _ => true
  end.

(** The number of nodes of a value, an item counting twice. *)
Fixpoint json_size (v : json) : nat :=
  match v with
  | JList l => S (list_sum (map (fun x => S (json_size x)) l))
  | JDict ps => S (list_sum (map (fun kv => S (json_size (snd kv))) ps))
  | _ => 1
  end.

(** ** Notions used in the proofs about the encoder and the decoder *)

(** The value of a run of digits read onto [acc]. *)
Definition value_of (acc : N) (ds : str) : N :=
  fold_left (fun a c => a * 10 + (c - 48)) ds acc.

Definition no_digit_ahead (rest : str) : Prop :=
  match rest with
  | [] => True
  | c :: _ => is_digit c = false
  end.

(** What may follow a value in the encoder's output: nothing, a comma or a
    line break. *)
Definition follow_ok (rest : str) : Prop :=
  match rest with
  | [] => True
  | c :: _ => c = 44 \/ c = 10
  end.

(** What follows a lone high surrogate is not the escape of a low one. *)
Definition no_low_escape_ahead (r : str) : Prop :=
  match r with
  | b1 :: u1 :: r' =>
      (b1 =? 92) && (u1 =? 117) = true ->
      exists a2 b2 c2 d2 r3 uni2,
        r' = a2 :: b2 :: c2 :: d2 :: r3 /\
        decode_uXXXX a2 b2 c2 d2 = Some uni2 /\
        is_low_surrogate uni2 = false
  | _ => True
  end.

(** An encoded value starts with a quote, a bracket, a brace, a letter of
    [null], [true] or [false], a minus sign or a digit. *)
Definition value_head (c : N) : Prop :=
  c = 34 \/ c = 91 \/ c = 123 \/ c = 110 \/ c = 116 \/ c = 102 \/ c = 45
  \/ is_digit c = true.

(** The items after the first, and the members after the first, as the
    encoder writes them. *)
Definition items_tail (level : nat) : list json -> str :=
  fix rest (l : list json) : str :=
    match l with
    | [] => []
    | y :: l' =>
        44 :: newline_indent level ++ iterencode level y ++ rest l'
    end.

Definition members_tail (level : nat) : list (str * json) -> str :=
  fix rest (l : list (str * json)) : str :=
    match l with
    | [] => []
    | (k', y) :: l' =>
        44 :: newline_indent level ++ encode_basestring_ascii k'
        ++ [58; 32] ++ iterencode level y ++ rest l'
    end.

(** The decoder reads back an encoded value, leaving what follows. *)
Definition decodes (v : json) : Prop :=
  forall (fuel level : nat) (rest : str),
    (json_size v <= fuel)%nat ->
    wf_json v = true ->
    follow_ok rest ->
    scan_once fuel (iterencode level v ++ rest) = Some (v, rest).

(** A Unicode scalar value: a code point that is not a surrogate. A text
    decoded from bytes, such as the body of a response, holds no other. *)
Definition scalar (c : N) : bool :=
  (c <? 55296) || ((57343 <? c) && (c <? 1114112)).

(** [s] starts with the escape [\uXXXX] of [c]. *)
Definition starts_with_escape_of (s : str) (c : N) : Prop :=
  exists a b c' d t,
    s = 92 :: 117 :: a :: b :: c' :: d :: t /\
    decode_uXXXX a b c' d = Some c.

(** What [scanstring] returns: a well-formed string, a rest of scalar
    values, and a low surrogate in front only from its own escape. *)
Definition scanned_well (s : str) : Prop :=
  forall k r,
    Forall (fun c => scalar c = true) s ->
    scanstring s = Some (k, r) ->
    wf_str k = true /\
    Forall (fun c => scalar c = true) r /\
    match k with
    | c :: _ => is_low_surrogate c = true -> starts_with_escape_of s c
    | [] => True
    end.

(** ** Observations on a run *)

(** The user identifier most recently supplied by a sequence of calls (in
    the order they were made), an empty one counting as not supplied. *)
Fixpoint last_user_id (calls : list Call) : option str :=
  match calls with
  | [] => None
  | c :: rest =>
      match last_user_id rest with
      | Some u => Some u
      | None => if truthy (call_user_id c) then call_user_id c else None
      end
  end.

(** The session identity [_api] works with once its first statement ran. *)
Definition session_at_build (user_id : option str) (w : World) : option str :=
  if truthy user_id then user_id else _session_user_id w.

(** The headers [_api] builds from the caller's and the session identity. *)
Definition headers_built (INTERNAL_KEY : str) (kwargs : Kwargs)
    (session : option str) : gmap str str :=
  let headers := <[py "X-Internal-Key" := INTERNAL_KEY]>
                   (default ∅ (kw_headers kwargs)) in
  match session with
  | Some (c :: s) => <[py "X-User-Id" := c :: s]> headers
  | _ => headers
  end.

(** The two headers the properties are about. *)
Definition user_header (r : Request) : option str :=
  req_headers r !! py "X-User-Id".

Definition internal_key_header (r : Request) : option str :=
  req_headers r !! py "X-Internal-Key".

(** What [_api] makes of a response: lines 48 and 49. *)
Definition settle (resp : Response) : Outcome json :=
  if (400 <=? status_code resp)%Z && (status_code resp <? 500)%Z then
    Raised (HTTPError (str_of_int (status_code resp) ++ py " Client Error: "
                         ++ reason resp ++ py " for url: " ++ url resp) resp)
  else if (500 <=? status_code resp)%Z && (status_code resp <? 600)%Z then
    Raised (HTTPError (str_of_int (status_code resp) ++ py " Server Error: "
                         ++ reason resp ++ py " for url: " ++ url resp) resp)
  else
    match json_body resp with
    | Some v => Returned v
    | None => Raised JSONDecodeError
    end.

(** ** A development configuration and some backends *)

(** The defaults of [API_BASE] and [INTERNAL_KEY]. *)
Definition dev_API_BASE : str := py "http://localhost:5000".
Definition dev_INTERNAL_KEY : str := py "dev-internal-key-change-in-prod".

(** A backend that answers every request with [resp]. *)
Definition answering (resp : Response) : list Request -> Reply :=
  fun _ => Answered resp.


(** [200 OK] with [{"leads": [{"id": "l1", "score": 82}]}]. *)
Definition resp_leads : Response :=
  {| status_code := 200; reason := py "OK";
     url := py "http://localhost:5000/leads/list";
     json_body :=
       Some (JDict [(py "leads",
                     JList [JDict [(py "id", JStr (py "l1"));
                                   (py "score", JInt 82)]])]) |}.








(** [500 Internal Server Error] with a body that is not JSON. *)
Definition resp_500 : Response :=
  {| status_code := 500; reason := py "Internal Server Error";
     url := py "http://localhost:5000/leads/list";
     json_body := None |}.

(** ** Notions used to state further properties *)

(** [d.get(k)] on an insertion-ordered dict. *)
Fixpoint dict_get (d : list (str * json)) (k : str) : option json :=
  match d with
  | [] => None
  | (k', v) :: d' => if decide (k' = k) then Some v else dict_get d' k
  end.

(** The keys of the JSON body of a request, when it is an object. *)
Definition body_keys (body : option json) : list str :=
  match body with
  | Some (JDict ps) => map fst ps
  | _ => []
  end.

(** A line feed or a printable ASCII character. *)
Definition is_ascii_text (c : N) : bool :=
  (c =? 10) || ((32 <=? c) && (c <=? 126)).


(** [200 OK] with [[1, 2]]. *)
Definition resp_pair : Response :=
  {| status_code := 200; reason := py "OK";
     url := py "http://localhost:5000/leads/l1";
     json_body := Some (JList [JInt 1; JInt 2]) |}.

(** * Properties of the JSON encoder and decoder *)

(** Quotient and remainder of [n] by the constant [b] as fresh variables
    with their equation, for [lia]. *)
Local Ltac euclid n b :=
  pose proof (N.div_mod n b ltac:(discriminate));
  pose proof (N.mod_lt n b ltac:(discriminate));
  generalize dependent (n mod b); generalize dependent (n / b); intros.

(** ** Integers *)

Lemma value_of_snoc (acc : N) (ds : str) (d : N) :
  value_of acc (ds ++ [d]) = value_of acc ds * 10 + (d - 48).
Proof. unfold value_of. rewrite fold_left_app. reflexivity. Qed.

Lemma scan_digits_run (ds rest : str) (acc : N) :
  Forall (fun c => is_digit c = true) ds ->
  no_digit_ahead rest ->
  scan_digits acc (ds ++ rest) = (value_of acc ds, rest).
Proof.
  intros Hds Hrest. revert acc.
  induction Hds as [|d ds Hd _ IH]; intros acc; cbn [app scan_digits].
  - destruct rest as [|c r]; [reflexivity|]. cbn [no_digit_ahead] in Hrest.
    cbn [scan_digits]. rewrite Hrest. reflexivity.
  - rewrite Hd. apply IH.
Qed.

Lemma is_digit_char (d : N) : d < 10 -> is_digit (48 + d) = true.
Proof.
  intros Hd. unfold is_digit. apply andb_true_intro.
  split; apply N.leb_le; lia.
Qed.

Lemma digits_of_S (fuel : nat) (n : N) (acc : str) :
  digits_of (S fuel) n acc =
    if n <? 10 then (48 + n mod 10) :: acc
    else digits_of fuel (n / 10) ((48 + n mod 10) :: acc).
Proof. reflexivity. Qed.

Lemma digits_of_spec (fuel : nat) :
  forall (n : N) (acc : str),
    n < 10 ^ N.of_nat (S fuel) ->
    exists d ds,
      digits_of (S fuel) n acc = d :: ds ++ acc /\
      Forall (fun c => is_digit c = true) (d :: ds) /\
      value_of 0 (d :: ds) = n /\
      (d = 48 -> n = 0 /\ ds = []).
Proof.
  induction fuel as [|fuel IH]; intros n acc Hn.
  - change (10 ^ N.of_nat 1) with 10 in Hn.
    exists (48 + n mod 10), []. rewrite digits_of_S.
    assert (Hm : n mod 10 = n) by (apply N.mod_small; exact Hn).
    rewrite Hm. destruct (n <? 10); (split; [reflexivity|]).
    all: split; [constructor; [|constructor]; apply is_digit_char, Hn|].
    all: split; [unfold value_of; cbn; lia|]. all: intros Hd; split; [lia|reflexivity].
  - rewrite digits_of_S. destruct (n <? 10) eqn:Hlt.
    + apply N.ltb_lt in Hlt.
      assert (Hm : n mod 10 = n) by (apply N.mod_small; exact Hlt).
      exists (48 + n mod 10), []. rewrite Hm. split; [reflexivity|].
      split; [constructor; [|constructor]; apply is_digit_char, Hlt|].
      split; [unfold value_of; cbn; lia|]. intros Hd; split; [lia|reflexivity].
    + apply N.ltb_ge in Hlt.
      assert (Hdiv : n / 10 < 10 ^ N.of_nat (S fuel)).
      { apply N.Div0.div_lt_upper_bound.
        rewrite Nat2N.inj_succ, N.pow_succ_r' in Hn. exact Hn. }
      destruct (IH (n / 10) ((48 + n mod 10) :: acc) Hdiv)
        as (d & ds & Heq & Hall & Hval & Hzero).
      exists d, (ds ++ [48 + n mod 10]). split.
      { rewrite Heq. rewrite <- app_assoc. reflexivity. }
      pose proof (N.mod_lt n 10 ltac:(discriminate)) as Hmod.
      split.
      { rewrite app_comm_cons. apply Forall_app. split; [exact Hall|].
        constructor; [|constructor]. apply is_digit_char, Hmod. }
      split.
      { rewrite app_comm_cons, value_of_snoc, Hval. clear. euclid n 10. lia. }
      intros Hd. destruct (Hzero Hd) as [H0 _]. clear -H0 Hlt.
      euclid n 10. lia.
Qed.

Lemma str_of_N_spec (n : N) :
  exists d ds,
    str_of_N n = d :: ds /\
    Forall (fun c => is_digit c = true) (d :: ds) /\
    value_of 0 (d :: ds) = n /\
    (d = 48 -> n = 0 /\ ds = []).
Proof.
  unfold str_of_N.
  destruct (digits_of_spec (N.to_nat (N.log2 n)) n []) as (d & ds & H).
  - rewrite Nat2N.inj_succ, N2Nat.id.
    destruct (N.eq_dec n 0) as [->|Hn]; [reflexivity|].
    apply N.lt_le_trans with (2 ^ N.succ (N.log2 n)).
    + apply N.log2_spec. lia.
    + apply N.pow_le_mono_l. lia.
  - exists d, ds. rewrite app_nil_r in H. exact H.
Qed.

Lemma follow_ok_no_digit (rest : str) : follow_ok rest -> no_digit_ahead rest.
Proof. destruct rest as [|c r]; [trivial|]. intros [-> | ->]; reflexivity. Qed.

Lemma follow_ok_no_float (rest : str) : follow_ok rest -> float_tail rest = false.
Proof.
  destruct rest as [|c [|d r]]; try reflexivity.
  intros [-> | ->]; reflexivity.
Qed.

Lemma scan_natural_str_of_N (n : N) (rest : str) :
  follow_ok rest -> scan_natural (str_of_N n ++ rest) = Some (n, rest).
Proof.
  intros Hrest.
  destruct (str_of_N_spec n) as (d & ds & -> & Hall & Hval & Hzero).
  cbn [app scan_natural]. destruct (d =? 48) eqn:Hd.
  - apply N.eqb_eq in Hd. destruct (Hzero Hd) as [-> ->]. reflexivity.
  - pose proof (Forall_inv Hall) as Hdig.
    pose proof (Forall_inv_tail Hall) as Hds. rewrite Hdig.
    rewrite scan_digits_run by (auto using follow_ok_no_digit).
    rewrite <- Hval. reflexivity.
Qed.

Lemma str_of_N_head (n : N) :
  exists d ds, str_of_N n = d :: ds /\ is_digit d = true.
Proof.
  destruct (str_of_N_spec n) as (d & ds & -> & Hall & _).
  exists d, ds. split; [reflexivity|]. exact (Forall_inv Hall).
Qed.

Lemma scan_int_str_of_int (z : Z) (rest : str) :
  within_int_limit (Z.abs_N z) = true ->
  follow_ok rest -> scan_int (str_of_int z ++ rest) = Some (z, rest).
Proof.
  intros Hlim Hrest. destruct z as [|p|p]; cbn [str_of_int];
    cbn [Z.abs_N Z.abs Z.to_N] in Hlim.
  - change (Z.to_N 0) with 0. 
    pose proof (scan_natural_str_of_N 0 rest Hrest) as H.
    destruct (str_of_N_head 0) as (d & ds & Heq & Hd).
    rewrite Heq in *. cbn [app scan_int].
    assert (Hne : (d =? 45) = false).
    { unfold is_digit in Hd. apply andb_prop in Hd as [H1 _].
      apply N.leb_le in H1. apply N.eqb_neq. lia. }
    rewrite Hne. cbn [app] in H. rewrite H.
    rewrite follow_ok_no_float by exact Hrest. rewrite Hlim. reflexivity.
  - change (Z.to_N (Z.pos p)) with (N.pos p).
    pose proof (scan_natural_str_of_N (N.pos p) rest Hrest) as H.
    destruct (str_of_N_head (N.pos p)) as (d & ds & Heq & Hd).
    rewrite Heq in *. cbn [app scan_int].
    assert (Hne : (d =? 45) = false).
    { unfold is_digit in Hd. apply andb_prop in Hd as [H1 _].
      apply N.leb_le in H1. apply N.eqb_neq. lia. }
    rewrite Hne. cbn [app] in H. rewrite H.
    rewrite follow_ok_no_float by exact Hrest. rewrite Hlim. reflexivity.
  - cbn [app scan_int]. change (45 =? 45) with true. cbv iota.
    rewrite scan_natural_str_of_N by exact Hrest.
    rewrite follow_ok_no_float by exact Hrest. rewrite Hlim. reflexivity.
Qed.

(** ** Strings *)

Lemma hex_value_digit (d : N) : d < 16 -> hex_value (hex_digit d) = Some d.
Proof.
  intros Hd. unfold hex_value, hex_digit. destruct (d <? 10) eqn:H10.
  - apply N.ltb_lt in H10. rewrite is_digit_char by exact H10.
    f_equal. lia.
  - apply N.ltb_ge in H10.
    assert (Hnd : is_digit (87 + d) = false).
    { unfold is_digit. apply andb_false_intro2. apply N.leb_gt. lia. }
    rewrite Hnd.
    assert (Haf : (97 <=? 87 + d) && (87 + d <=? 102) = true).
    { apply andb_true_intro. split; apply N.leb_le; lia. }
    rewrite Haf. f_equal. lia.
Qed.

Lemma decode_escape_u (n : N) :
  n < 65536 ->
  decode_uXXXX (hex_digit (n / 4096 mod 16)) (hex_digit (n / 256 mod 16))
    (hex_digit (n / 16 mod 16)) (hex_digit (n mod 16)) = Some n.
Proof.
  intros Hn. unfold decode_uXXXX.
  rewrite !hex_value_digit by (apply N.mod_lt; discriminate).
  f_equal.
  change 4096 with (16 * 16 * 16). change 256 with (16 * 16).
  rewrite <- !N.Div0.div_div.
  euclid (n / 16 / 16 / 16) 16. euclid (n / 16 / 16) 16.
  euclid (n / 16) 16. euclid n 16. lia.
Qed.

Lemma lor_disjoint (a b k : N) :
  b < 2 ^ k -> N.lor (a * 2 ^ k) b = a * 2 ^ k + b.
Proof.
  intros Hb.
  assert (Hland : N.land (a * 2 ^ k) b = 0).
  { apply N.bits_inj. intros i. rewrite N.land_spec, N.bits_0.
    destruct (N.lt_ge_cases i k) as [Hi|Hi].
    - rewrite N.mul_pow2_bits_low by exact Hi. reflexivity.
    - rewrite <- (N.mod_small b (2 ^ k)) by exact Hb.
      rewrite N.mod_pow2_bits_high by exact Hi. apply andb_false_r. }
  rewrite N.add_nocarry_lxor by exact Hland.
  symmetry. apply N.lxor_lor. exact Hland.
Qed.

(** The two halves written for a character above the basic plane are a
    high and a low surrogate, and the decoder's formula joins them back. *)
Lemma surrogate_pair_join (c : N) :
  65536 <= c -> c < 1114112 ->
  let n := c - 65536 in
  let s1 := N.lor 55296 (N.land (N.shiftr n 10) 1023) in
  let s2 := N.lor 56320 (N.land n 1023) in
  is_high_surrogate s1 = true /\ is_low_surrogate s2 = true /\
  65536 + N.lor (N.shiftl (s1 - 55296) 10) (s2 - 56320) = c.
Proof.
  intros Hlo Hhi n s1 s2.
  assert (Hn : n < 1048576) by (unfold n; lia).
  assert (Hq : N.land (N.shiftr n 10) 1023 = n / 1024).
  { change 1023 with (N.ones 10). rewrite N.land_ones, N.shiftr_div_pow2.
    change (2 ^ 10) with 1024. apply N.mod_small.
    apply N.Div0.div_lt_upper_bound. exact Hn. }
  assert (Hr : N.land n 1023 = n mod 1024).
  { change 1023 with (N.ones 10). rewrite N.land_ones. reflexivity. }
  assert (Hs1 : s1 = 55296 + n / 1024).
  { unfold s1. rewrite Hq. change 55296 with (54 * 2 ^ 10).
    apply lor_disjoint. change (2 ^ 10) with 1024.
    apply N.Div0.div_lt_upper_bound. exact Hn. }
  assert (Hs2 : s2 = 56320 + n mod 1024).
  { unfold s2. rewrite Hr. change 56320 with (55 * 2 ^ 10).
    apply lor_disjoint. change (2 ^ 10) with 1024.
    apply N.mod_lt. discriminate. }
  assert (Hjoin : N.lor (N.shiftl (s1 - 55296) 10) (s2 - 56320) = n).
  { rewrite Hs1, Hs2, N.shiftl_mul_pow2.
    replace (55296 + n / 1024 - 55296) with (n / 1024) by lia.
    replace (56320 + n mod 1024 - 56320) with (n mod 1024) by lia.
    rewrite lor_disjoint
      by (change (2 ^ 10) with 1024; apply N.mod_lt; discriminate).
    change (2 ^ 10) with 1024. clear. euclid n 1024. lia. }
  split; [|split].
  - rewrite Hs1. unfold is_high_surrogate. apply andb_true_intro.
    split; apply N.leb_le; clear -Hn; euclid n 1024; lia.
  - rewrite Hs2. unfold is_low_surrogate. apply andb_true_intro.
    split; apply N.leb_le; clear -Hn; euclid n 1024; lia.
  - rewrite Hjoin. unfold n. lia.
Qed.

(** The decoder's equations on the escapes the encoder writes. *)
Lemma scanstring_quote (r : str) : scanstring (34 :: r) = Some ([], r).
Proof. reflexivity. Qed.

Lemma scanstring_raw (c : N) (r : str) :
  c <> 34 -> c <> 92 -> 32 <= c ->
  scanstring (c :: r) = cons_char c (scanstring r).
Proof.
  intros H34 H92 H32. cbn [scanstring].
  apply N.eqb_neq in H34, H92. rewrite H34, H92.
  assert (Hlt : (c <? 32) = false) by (apply N.ltb_ge; exact H32).
  rewrite Hlt. reflexivity.
Qed.

Lemma scanstring_backslash (e ch : N) (r : str) :
  e <> 117 -> backslash e = Some ch ->
  scanstring (92 :: e :: r) = cons_char ch (scanstring r).
Proof.
  intros H117 Hb. cbn [scanstring]. change (92 =? 34) with false.
  change (92 =? 92) with true. cbv iota.
  apply N.eqb_neq in H117. rewrite H117, Hb. reflexivity.
Qed.

Lemma scanstring_u_plain (a b c d uni : N) (r : str) :
  decode_uXXXX a b c d = Some uni ->
  is_high_surrogate uni = false ->
  scanstring (92 :: 117 :: a :: b :: c :: d :: r)
    = cons_char uni (scanstring r).
Proof.
  intros Hd Hh. cbn [scanstring]. change (92 =? 34) with false.
  change (92 =? 92) with true. change (117 =? 117) with true. cbv iota.
  rewrite Hd, Hh. reflexivity.
Qed.

Lemma scanstring_u_high_alone (a b c d uni : N) (r : str) :
  decode_uXXXX a b c d = Some uni ->
  no_low_escape_ahead r ->
  scanstring (92 :: 117 :: a :: b :: c :: d :: r)
    = cons_char uni (scanstring r).
Proof.
  intros Hd Hr. cbn [scanstring]. change (92 =? 34) with false.
  change (92 =? 92) with true. change (117 =? 117) with true. cbv iota.
  rewrite Hd. destruct (is_high_surrogate uni); [|reflexivity].
  destruct r as [|b1 [|u1 r']]; try reflexivity.
  cbn [no_low_escape_ahead] in Hr.
  destruct ((b1 =? 92) && (u1 =? 117)); [|reflexivity].
  destruct (Hr eq_refl) as (a2 & b2 & c2 & d2 & r3 & uni2 & -> & Hd2 & Hl).
  rewrite Hd2, Hl. reflexivity.
Qed.

Lemma scanstring_u_pair (a b c d a2 b2 c2 d2 hi lo : N) (r : str) :
  decode_uXXXX a b c d = Some hi ->
  is_high_surrogate hi = true ->
  decode_uXXXX a2 b2 c2 d2 = Some lo ->
  is_low_surrogate lo = true ->
  scanstring (92 :: 117 :: a :: b :: c :: d
                :: 92 :: 117 :: a2 :: b2 :: c2 :: d2 :: r)
    = cons_char (65536 + N.lor (N.shiftl (hi - 55296) 10) (lo - 56320))
        (scanstring r).
Proof.
  intros Hd Hh Hd2 Hl. cbn [scanstring]. change (92 =? 34) with false.
  change (92 =? 92) with true. change (117 =? 117) with true.
  cbv iota. rewrite Hd, Hh. cbn [andb]. rewrite Hd2, Hl. reflexivity.
Qed.

(** The four shapes of an escaped character. *)
Lemma escape_char_cases (c : N) :
  c < 1114112 ->
  (escape_char c = [c] /\ c <> 34 /\ c <> 92 /\ 32 <= c)
  \/ (exists e, escape_char c = [92; e] /\ e <> 117 /\ backslash e = Some c)
  \/ (c < 65536 /\ escape_char c = escape_u c)
  \/ (65536 <= c /\
      escape_char c =
        escape_u (N.lor 55296 (N.land (N.shiftr (c - 65536) 10) 1023))
        ++ escape_u (N.lor 56320 (N.land (c - 65536) 1023))).
Proof.
  intros Hc. unfold escape_char.
  destruct (c =? 34) eqn:H34.
  { apply N.eqb_eq in H34 as ->. right; left. exists 34.
    repeat split; discriminate. }
  destruct (c =? 92) eqn:H92.
  { apply N.eqb_eq in H92 as ->. right; left. exists 92.
    repeat split; discriminate. }
  destruct (c =? 8) eqn:H8.
  { apply N.eqb_eq in H8 as ->. right; left. exists 98.
    repeat split; discriminate. }
  destruct (c =? 12) eqn:H12.
  { apply N.eqb_eq in H12 as ->. right; left. exists 102.
    repeat split; discriminate. }
  destruct (c =? 10) eqn:H10.
  { apply N.eqb_eq in H10 as ->. right; left. exists 110.
    repeat split; discriminate. }
  destruct (c =? 13) eqn:H13.
  { apply N.eqb_eq in H13 as ->. right; left. exists 114.
    repeat split; discriminate. }
  destruct (c =? 9) eqn:H9.
  { apply N.eqb_eq in H9 as ->. right; left. exists 116.
    repeat split; discriminate. }
  apply N.eqb_neq in H34, H92.
  destruct ((32 <=? c) && (c <=? 126)) eqn:Hp.
  { left. apply andb_prop in Hp as [Hp _]. apply N.leb_le in Hp.
    repeat split; assumption. }
  destruct (c <? 65536) eqn:Hb.
  - right; right; left. apply N.ltb_lt in Hb. split; [exact Hb|reflexivity].
  - right; right; right. apply N.ltb_ge in Hb. split; [exact Hb|reflexivity].
Qed.

Lemma high_not_low (c : N) :
  is_high_surrogate c = true -> is_low_surrogate c = false.
Proof.
  unfold is_high_surrogate, is_low_surrogate. intros H.
  apply andb_prop in H as [_ H]. apply N.leb_le in H.
  apply andb_false_intro1. apply N.leb_gt. lia.
Qed.

Lemma surrogate_below_plane (c : N) :
  is_high_surrogate c = true \/ is_low_surrogate c = true -> c < 65536.
Proof.
  unfold is_high_surrogate, is_low_surrogate.
  intros [H|H]; apply andb_prop in H as [_ H]; apply N.leb_le in H; lia.
Qed.

(** The head character of the next escaped character, after a character
    that is not the first half of a pair with it. *)
Lemma escaped_no_low_ahead (s rest : str) :
  wf_str s = true ->
  match s with
  | c' :: _ => is_low_surrogate c' = false
  | [] => True
  end ->
  no_low_escape_ahead (flat_map escape_char s ++ 34 :: rest).
Proof.
  destruct s as [|c' s'].
  - intros _ _. cbn. destruct rest as [|u1 r']; [exact I|].
    cbn. discriminate.
  - intros Hwf Hlow. cbn [wf_str] in Hwf.
    apply andb_prop in Hwf as [Hwf _]. apply andb_prop in Hwf as [Hc' _].
    apply N.ltb_lt in Hc'. cbn [flat_map]. rewrite <- app_assoc.
    destruct (escape_char_cases c' Hc')
      as [(-> & _ & H92 & _) | [(e & -> & H117 & _) | [(Hb & ->) | (Hb & ->)]]].
    + cbn [app]. unfold no_low_escape_ahead.
      destruct (flat_map escape_char s' ++ 34 :: rest); [exact I|].
      apply N.eqb_neq in H92. rewrite H92. discriminate.
    + cbn [app]. unfold no_low_escape_ahead.
      apply N.eqb_neq in H117. rewrite H117, andb_false_r. discriminate.
    + unfold escape_u. cbn [app no_low_escape_ahead]. intros _.
      do 5 eexists. exists c'. split; [reflexivity|].
      split; [apply decode_escape_u; exact Hb|exact Hlow].
    + destruct (surrogate_pair_join c') as (Hh & Hl & _); [exact Hb|exact Hc'|].
      cbv zeta in Hh, Hl.
      unfold escape_u at 1. cbn [app no_low_escape_ahead]. intros _.
      do 5 eexists. eexists. split; [reflexivity|].
      split; [apply decode_escape_u; apply surrogate_below_plane; left;
              exact Hh|].
      apply high_not_low, Hh.
Qed.

Lemma scanstring_escaped (s rest : str) :
  wf_str s = true ->
  scanstring (flat_map escape_char s ++ 34 :: rest) = Some (s, rest).
Proof.
  induction s as [|c s IH]; intros Hwf; [reflexivity|].
  cbn [wf_str] in Hwf.
  apply andb_prop in Hwf as [Hwf Hs]. apply andb_prop in Hwf as [Hc Hpair].
  apply N.ltb_lt in Hc. specialize (IH Hs).
  cbn [flat_map]. rewrite <- app_assoc.
  destruct (escape_char_cases c Hc)
    as [(-> & H34 & H92 & H32) | [(e & -> & H117 & He)
        | [(Hb & ->) | (Hb & ->)]]].
  - cbn [app]. rewrite scanstring_raw, IH by assumption. reflexivity.
  - cbn [app]. rewrite (scanstring_backslash e c), IH by assumption.
    reflexivity.
  - unfold escape_u. cbn [app].
    pose proof (decode_escape_u c Hb) as Hd.
    destruct (is_high_surrogate c) eqn:Hh.
    + rewrite (scanstring_u_high_alone _ _ _ _ c), IH; [reflexivity|exact Hd|].
      apply escaped_no_low_ahead; [exact Hs|].
      destruct s as [|c' s']; [exact I|].
      cbn [andb] in Hpair. apply negb_true_iff in Hpair. exact Hpair.
    + rewrite (scanstring_u_plain _ _ _ _ c), IH by assumption. reflexivity.
  - destruct (surrogate_pair_join c Hb Hc) as (Hh & Hl & Hjoin).
    cbv zeta in Hh, Hl, Hjoin.
    unfold escape_u. cbn [app].
    erewrite scanstring_u_pair; [rewrite IH, Hjoin; reflexivity| | | |].
    + apply decode_escape_u, surrogate_below_plane. left. exact Hh.
    + exact Hh.
    + apply decode_escape_u, surrogate_below_plane. right. exact Hl.
    + exact Hl.
Qed.

Lemma scanstring_encoded (s rest : str) :
  wf_str s = true ->
  exists t,
    encode_basestring_ascii s ++ rest = 34 :: t /\
    scanstring t = Some (s, rest).
Proof.
  intros Hwf. exists (flat_map escape_char s ++ 34 :: rest). split.
  - unfold encode_basestring_ascii. cbn [app]. rewrite <- app_assoc.
    reflexivity.
  - apply scanstring_escaped, Hwf.
Qed.

(** ** Whitespace and the first character of an encoded value *)

Lemma skip_ws_newline_indent (level : nat) (t : str) :
  skip_ws (newline_indent level ++ t) = skip_ws t.
Proof.
  unfold newline_indent. cbn [app skip_ws]. change (is_ws 10) with true.
  cbv iota. induction (2 * level)%nat as [|n IH]; [reflexivity|].
  cbn [repeat app skip_ws]. change (is_ws 32) with true. exact IH.
Qed.

Lemma skip_ws_stop (c : N) (t : str) :
  is_ws c = false -> skip_ws (c :: t) = c :: t.
Proof. intros H. cbn [skip_ws]. rewrite H. reflexivity. Qed.

Lemma value_head_not_ws (c : N) : value_head c -> is_ws c = false.
Proof.
  intros [->|[->|[->|[->|[->|[->|[->|H]]]]]]]; try reflexivity.
  unfold is_digit in H. apply andb_prop in H as [H _]. apply N.leb_le in H.
  unfold is_ws. rewrite !orb_false_iff. repeat split; apply N.eqb_neq; lia.
Qed.

Lemma value_head_not_closing (c : N) : value_head c -> (c =? 93) = false.
Proof.
  intros [->|[->|[->|[->|[->|[->|[->|H]]]]]]]; try reflexivity.
  unfold is_digit in H. apply andb_prop in H as [_ H]. apply N.leb_le in H.
  apply N.eqb_neq. lia.
Qed.

Lemma str_of_int_head (z : Z) :
  exists c t, str_of_int z = c :: t /\ (c = 45 \/ is_digit c = true).
Proof.
  destruct z as [|p|p]; cbn [str_of_int].
  - destruct (str_of_N_head (Z.to_N 0)) as (d & ds & -> & Hd). eauto.
  - destruct (str_of_N_head (Z.to_N (Z.pos p))) as (d & ds & -> & Hd). eauto.
  - eauto.
Qed.

Lemma iterencode_head (level : nat) (v : json) :
  exists c t, iterencode level v = c :: t /\ value_head c.
Proof.
  unfold value_head.
  destruct v as [|[|]|z|s|[|x xs]|[|[k x] ps]]; cbn [iterencode];
    try (do 2 eexists; split; [reflexivity|]; tauto).
  destruct (str_of_int_head z) as (c & t & -> & [->|H]);
    do 2 eexists; (split; [reflexivity|]); tauto.
Qed.

Lemma skip_ws_iterencode (level : nat) (v : json) (t : str) :
  skip_ws (iterencode level v ++ t) = iterencode level v ++ t.
Proof.
  destruct (iterencode_head level v) as (c & u & -> & Hc).
  cbn [app]. apply skip_ws_stop, value_head_not_ws, Hc.
Qed.

(** ** The decoder's equations *)

Lemma scan_once_string (fuel : nat) (t : str) :
  scan_once (S fuel) (34 :: t) =
    match scanstring t with
    | Some (k, r') => Some (JStr k, r')
    | None => None
    end.
Proof. reflexivity. Qed.

Lemma scan_once_array (fuel : nat) (t : str) :
  scan_once (S fuel) (91 :: t) =
    match skip_ws t with
    | c1 :: r1 =>
        if c1 =? 93 then Some (JList [], r1)
        else
          match scan_items fuel (c1 :: r1) with
          | Some (vs, r') => Some (JList vs, r')
          | None => None
          end
    | [] => None
    end.
Proof. reflexivity. Qed.

Lemma scan_once_object (fuel : nat) (t : str) :
  scan_once (S fuel) (123 :: t) =
    match skip_ws t with
    | c1 :: r1 =>
        if c1 =? 125 then Some (JDict [], r1)
        else if c1 =? 34 then
          match scan_members fuel r1 with
          | Some (ps, r') => Some (JDict (dict_of_pairs ps), r')
          | None => None
          end
        else None
    | [] => None
    end.
Proof. reflexivity. Qed.

Lemma scan_once_number (fuel : nat) (c : N) (t : str) :
  c = 45 \/ is_digit c = true ->
  scan_once (S fuel) (c :: t) =
    match scan_int (c :: t) with
    | Some (z, r') => Some (JInt z, r')
    | None => None
    end.
Proof.
  intros Hc.
  assert (H : (c =? 34) = false /\ (c =? 123) = false /\ (c =? 91) = false
              /\ (c =? 110) = false /\ (c =? 116) = false
              /\ (c =? 102) = false).
  { destruct Hc as [->|Hc]; [repeat split; reflexivity|].
    unfold is_digit in Hc. apply andb_prop in Hc as [Hlo Hhi].
    apply N.leb_le in Hlo, Hhi. repeat split; apply N.eqb_neq; lia. }
  destruct H as (H1 & H2 & H3 & H4 & H5 & H6).
  cbn [scan_once]. rewrite H1, H2, H3, H4, H5, H6. reflexivity.
Qed.

Lemma scan_items_S (fuel : nat) (s : str) :
  scan_items (S fuel) s =
    match scan_once fuel s with
    | Some (v, r) =>
        match skip_ws r with
        | c :: r1 =>
            if c =? 93 then Some ([v], r1)
            else if c =? 44 then
              match scan_items fuel (skip_ws r1) with
              | Some (vs, r') => Some (v :: vs, r')
              | None => None
              end
            else None
        | [] => None
        end
    | None => None
    end.
Proof. reflexivity. Qed.

Lemma scan_members_S (fuel : nat) (s : str) :
  scan_members (S fuel) s =
    match scanstring s with
    | Some (k, r) =>
        match skip_ws r with
        | c :: r1 =>
            if c =? 58 then
              match scan_once fuel (skip_ws r1) with
              | Some (v, r2) =>
                  match skip_ws r2 with
                  | c2 :: r3 =>
                      if c2 =? 125 then Some ([(k, v)], r3)
                      else if c2 =? 44 then
                        match skip_ws r3 with
                        | q :: r4 =>
                            if q =? 34 then
                              match scan_members fuel r4 with
                              | Some (ps, r') => Some ((k, v) :: ps, r')
                              | None => None
                              end
                            else None
                        | [] => None
                        end
                      else None
                  | [] => None
                  end
              | None => None
              end
            else None
        | [] => None
        end
    | None => None
    end.
Proof. reflexivity. Qed.

(** ** The round trip *)

Lemma iterencode_list (level : nat) (x : json) (xs : list json) :
  iterencode level (JList (x :: xs)) =
    91 :: newline_indent (S level) ++ iterencode (S level) x
    ++ items_tail (S level) xs ++ newline_indent level ++ [93].
Proof. reflexivity. Qed.

Lemma iterencode_dict (level : nat) (k : str) (x : json)
    (ps : list (str * json)) :
  iterencode level (JDict ((k, x) :: ps)) =
    123 :: newline_indent (S level) ++ encode_basestring_ascii k
    ++ [58; 32] ++ iterencode (S level) x
    ++ members_tail (S level) ps ++ newline_indent level ++ [125].
Proof. reflexivity. Qed.

Lemma json_induction (P : json -> Prop) :
  P JNull ->
  (forall b, P (JBool b)) ->
  (forall z, P (JInt z)) ->
  (forall s, P (JStr s)) ->
  (forall l, Forall P l -> P (JList l)) ->
  (forall ps, Forall (fun kv => P (snd kv)) ps -> P (JDict ps)) ->
  forall v, P v.
Proof.
  intros Hnull Hbool Hint Hstr Hlist Hdict.
  fix IH 1. intros [|b|z|s|l|ps].
  - exact Hnull.
  - apply Hbool.
  - apply Hint.
  - apply Hstr.
  - apply Hlist.
    exact ((fix all (l : list json) : Forall P l :=
              match l with
              | [] => List.Forall_nil P
              | x :: l' => List.Forall_cons P x l' (IH x) (all l')
              end) l).
  - apply Hdict.
    exact ((fix all (ps : list (str * json))
              : Forall (fun kv => P (snd kv)) ps :=
              match ps with
              | [] => List.Forall_nil _
              | kv :: ps' => List.Forall_cons _ kv ps' (IH (snd kv)) (all ps')
              end) ps).
Qed.

(** With distinct keys, [dict(pairs)] keeps the pairs as they are. *)
Lemma dict_set_fresh (d : list (str * json)) (k : str) (v : json) :
  k ∉ map fst d -> dict_set d k v = d ++ [(k, v)].
Proof.
  induction d as [|[k' v'] d IH]; intros Hk; [reflexivity|].
  cbn [dict_set]. cbn [map fst] in Hk.
  apply not_elem_of_cons in Hk as [Hne Hk].
  destruct (decide (k' = k)) as [->|_]; [congruence|].
  rewrite IH by exact Hk. reflexivity.
Qed.

Lemma dict_of_pairs_nodup (ps : list (str * json)) :
  NoDup (map fst ps) -> dict_of_pairs ps = ps.
Proof.
  unfold dict_of_pairs. intros Hnd.
  enough (H : forall acc,
             NoDup (map fst (acc ++ ps)) ->
             fold_left (fun d kv => dict_set d (fst kv) (snd kv)) ps acc
               = acc ++ ps) by (apply (H []); exact Hnd).
  clear Hnd. induction ps as [|[k v] ps IH]; intros acc Hnd.
  - cbn. rewrite app_nil_r. reflexivity.
  - cbn [fold_left fst snd]. rewrite dict_set_fresh.
    + rewrite IH; rewrite <- app_assoc; [reflexivity|exact Hnd].
    + rewrite map_app in Hnd. cbn [map fst] in Hnd.
      apply NoDup_app in Hnd as (_ & Hdis & _).
      intros Hin. apply (Hdis k Hin). apply elem_of_cons. left. reflexivity.
Qed.

Lemma follow_ok_items_tail (level level' : nat) (xs : list json) (t : str) :
  follow_ok (items_tail level xs ++ newline_indent level' ++ t).
Proof. destruct xs; cbn; auto. Qed.

Lemma follow_ok_members_tail (level level' : nat) (ps : list (str * json))
    (t : str) :
  follow_ok (members_tail level ps ++ newline_indent level' ++ t).
Proof. destruct ps as [|[k y] ps]; cbn; auto. Qed.

Lemma scan_items_encoded (xs : list json) :
  forall (x : json) (fuel level : nat) (rest : str),
    Forall decodes (x :: xs) ->
    (list_sum (map (fun y => S (json_size y)) (x :: xs)) <= fuel)%nat ->
    forallb wf_json (x :: xs) = true ->
    scan_items fuel
      (iterencode (S level) x ++ items_tail (S level) xs
         ++ newline_indent level ++ 93 :: rest)
      = Some (x :: xs, rest).
Proof.
  induction xs as [|y ys IH]; intros x fuel level rest Hall Hfuel Hwf.
  - cbn [map list_sum fold_right] in Hfuel.
    destruct fuel as [|fuel]; [lia|].
    rewrite scan_items_S.
    rewrite (Forall_inv Hall).
    + cbn [items_tail app]. rewrite skip_ws_newline_indent.
      reflexivity.
    + lia.
    + cbn in Hwf. rewrite andb_true_r in Hwf. exact Hwf.
    + apply (follow_ok_items_tail (S level) level []).
  - cbn [map list_sum fold_right] in Hfuel.
    destruct fuel as [|fuel]; [lia|].
    rewrite scan_items_S.
    cbn [forallb] in Hwf. apply andb_prop in Hwf as [Hx Hrest].
    rewrite (Forall_inv Hall).
    + cbn [items_tail]. fold (items_tail (S level)).
      cbn [app skip_ws]. change (is_ws 44) with false. cbv iota.
      change (44 =? 93) with false. change (44 =? 44) with true. cbv iota.
      rewrite <- !app_assoc.
      rewrite skip_ws_newline_indent, skip_ws_iterencode.
      rewrite IH; [reflexivity|exact (Forall_inv_tail Hall)| |exact Hrest].
      cbn [map list_sum fold_right]. lia.
    + lia.
    + exact Hx.
    + apply (follow_ok_items_tail (S level) level (y :: ys)).
Qed.

Lemma encode_basestring_ascii_app (k t : str) :
  encode_basestring_ascii k ++ t = 34 :: flat_map escape_char k ++ 34 :: t.
Proof.
  unfold encode_basestring_ascii. cbn [app]. rewrite <- app_assoc. reflexivity.
Qed.

Lemma scan_members_encoded (ps : list (str * json)) :
  forall (k : str) (x : json) (fuel level : nat) (rest : str),
    Forall (fun kv => decodes (snd kv)) ((k, x) :: ps) ->
    (list_sum (map (fun kv => S (json_size (snd kv))) ((k, x) :: ps)) <= fuel)%nat ->
    forallb (fun kv => wf_str (fst kv) && wf_json (snd kv)) ((k, x) :: ps)
      = true ->
    scan_members fuel
      (flat_map escape_char k
         ++ 34 :: 58 :: 32 :: iterencode (S level) x
         ++ members_tail (S level) ps ++ newline_indent level ++ 125 :: rest)
      = Some ((k, x) :: ps, rest).
Proof.
  induction ps as [|[k' y] ps IH]; intros k x fuel level rest Hall Hfuel Hwf.
  - cbn [map list_sum fold_right snd] in Hfuel.
    destruct fuel as [|fuel]; [lia|].
    cbn [forallb fst snd] in Hwf. rewrite andb_true_r in Hwf.
    apply andb_prop in Hwf as [Hk Hx].
    rewrite scan_members_S, scanstring_escaped by exact Hk.
    rewrite skip_ws_stop by reflexivity. change (58 =? 58) with true.
    cbv iota. change (skip_ws (32 :: ?t)) with (skip_ws t).
    rewrite skip_ws_iterencode.
    pose proof (Forall_inv Hall) as Hdx. cbn [snd] in Hdx. rewrite Hdx.
    + cbn [members_tail app]. rewrite skip_ws_newline_indent.
      reflexivity.
    + lia.
    + exact Hx.
    + apply (follow_ok_members_tail (S level) level []).
  - cbn [map list_sum fold_right snd] in Hfuel.
    destruct fuel as [|fuel]; [lia|].
    cbn [forallb fst snd] in Hwf. apply andb_prop in Hwf as [Hwf Hrest].
    apply andb_prop in Hwf as [Hk Hx].
    rewrite scan_members_S, scanstring_escaped by exact Hk.
    rewrite skip_ws_stop by reflexivity. change (58 =? 58) with true.
    cbv iota. change (skip_ws (32 :: ?t)) with (skip_ws t).
    rewrite skip_ws_iterencode.
    pose proof (Forall_inv Hall) as Hdx. cbn [snd] in Hdx. rewrite Hdx.
    + cbn [members_tail]. fold (members_tail (S level)).
      cbn [app]. rewrite skip_ws_stop by reflexivity.
      change (44 =? 125) with false. change (44 =? 44) with true. cbv iota.
      rewrite <- !app_assoc. rewrite skip_ws_newline_indent.
      rewrite encode_basestring_ascii_app.
      rewrite skip_ws_stop by reflexivity.
      change (34 =? 34) with true. cbv iota. cbn [app].
      rewrite <- ?app_assoc.
      rewrite IH; [reflexivity|exact (Forall_inv_tail Hall)| |].
      * cbn [map list_sum fold_right snd]. lia.
      * cbn [forallb fst snd]. exact Hrest.
    + lia.
    + exact Hx.
    + apply (follow_ok_members_tail (S level) level ((k', y) :: ps)).
Qed.

Theorem scan_once_iterencode (v : json) : decodes v.
Proof.
  induction v as [|b|z|s|l IH|ps IH] using json_induction;
    intros fuel level rest Hfuel Hwf Hrest;
    (destruct fuel as [|fuel]; [cbn in Hfuel; lia|]).
  - reflexivity.
  - destruct b; reflexivity.
  - cbn [iterencode].
    destruct (str_of_int_head z) as (c & t & Heq & Hc).
    pose proof (scan_int_str_of_int z rest Hwf Hrest) as Hscan.
    rewrite Heq in *. cbn [app] in *.
    rewrite scan_once_number by exact Hc. rewrite Hscan. reflexivity.
  - cbn [iterencode]. cbn [wf_json] in Hwf.
    rewrite encode_basestring_ascii_app, scan_once_string.
    rewrite scanstring_escaped by exact Hwf. reflexivity.
  - destruct l as [|x xs]; [reflexivity|].
    rewrite iterencode_list. cbn [app]. rewrite scan_once_array.
    rewrite <- !app_assoc. rewrite skip_ws_newline_indent.
    destruct (iterencode_head (S level) x) as (c & t & Heq & Hc).
    pose proof (scan_items_encoded xs x fuel level rest IH) as Hitems.
    rewrite Heq in *. cbn [app] in *.
    rewrite skip_ws_stop by (apply value_head_not_ws, Hc).
    rewrite (value_head_not_closing c Hc).
    rewrite Hitems; [reflexivity| |exact Hwf].
    cbn [json_size] in Hfuel. lia.
  - destruct ps as [|[k x] ps]; [reflexivity|].
    rewrite iterencode_dict. cbn [app]. rewrite scan_once_object.
    rewrite <- !app_assoc. rewrite skip_ws_newline_indent.
    rewrite encode_basestring_ascii_app.
    rewrite skip_ws_stop by reflexivity.
    change (34 =? 125) with false. change (34 =? 34) with true. cbv iota.
    cbn [wf_json] in Hwf. apply andb_prop in Hwf as [Hwf Hnd].
    apply bool_decide_eq_true in Hnd.
    cbn [app]. rewrite <- ?app_assoc. cbn [app].
    rewrite scan_members_encoded; [|exact IH| |exact Hwf].
    + rewrite dict_of_pairs_nodup by exact Hnd. reflexivity.
    + cbn [json_size] in Hfuel. lia.
Qed.

(** The fuel [json_loads] takes, the length of the text, is enough. *)
Lemma size_le_length (v : json) :
  forall level : nat, (json_size v <= length (iterencode level v))%nat.
Proof.
  induction v as [|b|z|s|l IH|ps IH] using json_induction; intros level.
  - cbn. lia.
  - destruct b; cbn; lia.
  - cbn [iterencode json_size].
    destruct (str_of_int_head z) as (c & t & -> & _). cbn [length]. lia.
  - cbn [iterencode json_size]. unfold encode_basestring_ascii. cbn [length]. lia.
  - destruct l as [|x xs]; [cbn; lia|].
    rewrite iterencode_list. cbn [json_size map list_sum fold_right length].
    rewrite !length_app. cbn [newline_indent length].
    pose proof (Forall_inv IH (S level)) as Hx.
    assert (Hxs : (list_sum (map (fun y => S (json_size y)) xs)
                   <= length (items_tail (S level) xs))%nat).
    { pose proof (Forall_inv_tail IH) as IHxs. clear -IHxs.
      induction IHxs as [|y ys Hy _ IHys]; [cbn; lia|].
      cbn [map list_sum fold_right items_tail]. fold (items_tail (S level)).
      cbn [length]. rewrite !length_app. specialize (Hy (S level)).
      unfold list_sum in IHys. lia. }
    unfold list_sum in Hxs. lia.
  - destruct ps as [|[k x] ps]; [cbn; lia|].
    rewrite iterencode_dict. cbn [json_size map list_sum fold_right length snd].
    rewrite !length_app. cbn [newline_indent length].
    pose proof (Forall_inv IH (S level)) as Hx. cbn [snd] in Hx.
    assert (Hps : (list_sum (map (fun kv => S (json_size (snd kv))) ps)
                   <= length (members_tail (S level) ps))%nat).
    { pose proof (Forall_inv_tail IH) as IHps. clear -IHps.
      induction IHps as [|[k' y] ys Hy _ IHys]; [cbn; lia|].
      cbn [map list_sum fold_right members_tail snd].
      fold (members_tail (S level)).
      cbn [length]. rewrite !length_app. specialize (Hy (S level)).
      cbn [snd] in Hy. unfold list_sum in IHys. lia. }
    unfold list_sum in Hps. lia.
Qed.

(** Parsing the text [json.dumps(v, indent=2)] gives [v] back. *)
Theorem json_loads_dumps (v : json) :
  wf_json v = true -> json_loads (json_dumps v) = Some v.
Proof.
  intros Hwf. unfold json_loads, json_dumps.
  pose proof (skip_ws_iterencode 0 v []) as Hws.
  rewrite app_nil_r in Hws. rewrite Hws.
  pose proof (scan_once_iterencode v (length (iterencode 0 v)) 0%nat []
                (size_le_length v 0%nat) Hwf I) as Hscan.
  rewrite app_nil_r in Hscan. rewrite Hscan. reflexivity.
Qed.

(** ** Values the decoder returns

    Whatever [json.loads] returns on a text of scalar values is a value as
    Python builds them. *)

Lemma hex_value_bound (c v : N) : hex_value c = Some v -> v < 16.
Proof.
  unfold hex_value, is_digit.
  destruct ((48 <=? c) && (c <=? 57)) eqn:H1.
  { intros [= <-]. apply andb_prop in H1 as [_ H]. apply N.leb_le in H. lia. }
  destruct ((97 <=? c) && (c <=? 102)) eqn:H2.
  { intros [= <-]. apply andb_prop in H2 as [_ H]. apply N.leb_le in H. lia. }
  destruct ((65 <=? c) && (c <=? 70)) eqn:H3; [|discriminate].
  intros [= <-]. apply andb_prop in H3 as [_ H]. apply N.leb_le in H. lia.
Qed.

Lemma decode_uXXXX_bound (a b c d uni : N) :
  decode_uXXXX a b c d = Some uni -> uni < 65536.
Proof.
  unfold decode_uXXXX.
  destruct (hex_value a) as [x3|] eqn:H3; [|discriminate].
  destruct (hex_value b) as [x2|] eqn:H2; [|discriminate].
  destruct (hex_value c) as [x1|] eqn:H1; [|discriminate].
  destruct (hex_value d) as [x0|] eqn:H0; [|discriminate].
  apply hex_value_bound in H3, H2, H1, H0. intros [= <-]. lia.
Qed.

Lemma backslash_plain (e ch : N) :
  backslash e = Some ch ->
  ch < 1114112 /\ is_high_surrogate ch = false /\ is_low_surrogate ch = false.
Proof.
  unfold backslash.
  repeat (match goal with
          | |- context [if ?b then _ else _] => destruct b
          end; [intros [= <-]; repeat split; reflexivity|]).
  discriminate.
Qed.

Lemma scalar_plain (c : N) :
  scalar c = true ->
  c < 1114112 /\ is_high_surrogate c = false /\ is_low_surrogate c = false.
Proof.
  unfold scalar, is_high_surrogate, is_low_surrogate. intros H.
  apply orb_prop in H as [H|H].
  - apply N.ltb_lt in H. split; [lia|].
    split; apply andb_false_intro1; apply N.leb_gt; lia.
  - apply andb_prop in H as [H1 H2]. apply N.ltb_lt in H1, H2.
    split; [exact H2|]. split; apply andb_false_intro2; apply N.leb_gt; lia.
Qed.

Lemma joined_pair_plain (hi lo : N) :
  is_high_surrogate hi = true -> is_low_surrogate lo = true ->
  let c := 65536 + N.lor (N.shiftl (hi - 55296) 10) (lo - 56320) in
  c < 1114112 /\ is_high_surrogate c = false /\ is_low_surrogate c = false.
Proof.
  unfold is_high_surrogate, is_low_surrogate. intros Hh Hl.
  apply andb_prop in Hh as [Hh1 Hh2]. apply andb_prop in Hl as [Hl1 Hl2].
  apply N.leb_le in Hh1, Hh2, Hl1, Hl2. cbv zeta.
  rewrite N.shiftl_mul_pow2, lor_disjoint by (change (2 ^ 10) with 1024; lia).
  change (2 ^ 10) with 1024.
  split; [lia|]. split; apply andb_false_intro2; apply N.leb_gt; lia.
Qed.

Lemma cons_char_Some (c : N) (res : option (str * str)) (k r : str) :
  cons_char c res = Some (k, r) ->
  exists k', k = c :: k' /\ res = Some (k', r).
Proof.
  destruct res as [[k' r']|]; [|discriminate].
  intros [= <- <-]. exists k'. split; reflexivity.
Qed.

Lemma wf_str_cons (c : N) (k : str) :
  c < 1114112 ->
  (is_high_surrogate c = true ->
   match k with
   | c' :: _ => is_low_surrogate c' = false
   | [] => True
   end) ->
  wf_str k = true ->
  wf_str (c :: k) = true.
Proof.
  intros Hc Hpair Hk. cbn [wf_str]. rewrite Hk, andb_true_r.
  apply andb_true_intro. split; [apply N.ltb_lt; exact Hc|].
  apply negb_true_iff. destruct (is_high_surrogate c); [|reflexivity].
  destruct k as [|c' k']; [reflexivity|]. cbn [andb]. apply Hpair. reflexivity.
Qed.

Lemma scanstring_wf_bounded (n : nat) :
  forall s : str, (length s <= n)%nat -> scanned_well s.
Proof.
  induction n as [|n IH]; intros s Hlen k r Hs Hscan.
  { destruct s; [discriminate|cbn in Hlen; lia]. }
  destruct s as [|c s1]; [discriminate|].
  pose proof (Forall_inv Hs) as Hc. pose proof (Forall_inv_tail Hs) as Hs1.
  cbn [length] in Hlen. cbn [scanstring] in Hscan.
  destruct (c =? 34) eqn:H34.
  { injection Hscan as <- <-. repeat split; [exact Hs1]. }
  destruct (c =? 92) eqn:H92.
  - destruct s1 as [|e s2]; [discriminate|].
    pose proof (Forall_inv_tail Hs1) as Hs2. cbn [length] in Hlen.
    destruct (e =? 117) eqn:H117.
    + destruct s2 as [|a [|b [|c' [|d r2]]]]; try discriminate.
      cbn [length] in Hlen.
      destruct (decode_uXXXX a b c' d) as [uni|] eqn:Hd; [|discriminate].
      pose proof (decode_uXXXX_bound _ _ _ _ _ Hd) as Huni.
      assert (Hr2 : Forall (fun c => scalar c = true) r2).
      { do 4 apply Forall_inv_tail in Hs2. exact Hs2. }
      assert (Hstart : starts_with_escape_of
                         (c :: e :: a :: b :: c' :: d :: r2) uni).
      { apply N.eqb_eq in H92 as ->. apply N.eqb_eq in H117 as ->.
        do 5 eexists. split; [reflexivity|exact Hd]. }
      assert (Hplain : forall k2,
                 scanstring r2 = Some (k2, r) ->
                 (is_high_surrogate uni = true ->
                  match k2 with
                  | c2 :: _ => is_low_surrogate c2 = false
                  | [] => True
                  end) ->
                 wf_str (uni :: k2) = true /\
                 Forall (fun c => scalar c = true) r /\
                 (is_low_surrogate uni = true ->
                  starts_with_escape_of
                    (c :: e :: a :: b :: c' :: d :: r2) uni)).
      { intros k2 Hk2 Hpair.
        destruct (IH r2 ltac:(lia) k2 r Hr2 Hk2) as (Hwf2 & Hr & _).
        split; [apply wf_str_cons; [lia|exact Hpair|exact Hwf2]|].
        split; [exact Hr|]. intros _. exact Hstart. }
      assert (Hlone : forall k2,
                 scanstring r2 = Some (k2, r) ->
                 (forall c2, starts_with_escape_of r2 c2 ->
                             is_low_surrogate c2 = false) ->
                 wf_str (uni :: k2) = true /\
                 Forall (fun c => scalar c = true) r /\
                 (is_low_surrogate uni = true ->
                  starts_with_escape_of
                    (c :: e :: a :: b :: c' :: d :: r2) uni)).
      { intros k2 Hk2 Hno. apply Hplain; [exact Hk2|]. intros _.
        destruct (IH r2 ltac:(lia) k2 r Hr2 Hk2) as (_ & _ & Hhead).
        destruct k2 as [|c2 k2']; [exact I|].
        destruct (is_low_surrogate c2) eqn:Hl2; [|reflexivity].
        rewrite <- Hl2. apply Hno, Hhead. reflexivity. }
      destruct (is_high_surrogate uni) eqn:Hh.
      * destruct r2 as [|b1 [|u1 r2']].
        -- apply cons_char_Some in Hscan as (k2 & -> & Hk2).
           apply Hlone; [exact Hk2|].
           intros c2 (? & ? & ? & ? & ? & Heq & _). discriminate.
        -- apply cons_char_Some in Hscan as (k2 & -> & Hk2).
           apply Hlone; [exact Hk2|].
           intros c2 (? & ? & ? & ? & ? & Heq & _). discriminate.
        -- destruct ((b1 =? 92) && (u1 =? 117)) eqn:Hbu.
           ++ destruct r2' as [|a2 [|b2 [|c2 [|d2 r3]]]]; try discriminate.
              destruct (decode_uXXXX a2 b2 c2 d2) as [uni2|] eqn:Hd2;
                [|discriminate].
              destruct (is_low_surrogate uni2) eqn:Hl.
              ** apply cons_char_Some in Hscan as (k3 & -> & Hk3).
                 assert (Hr3 : Forall (fun c => scalar c = true) r3).
                 { do 6 apply Forall_inv_tail in Hr2. exact Hr2. }
                 cbn [length] in Hlen.
                 destruct (IH r3 ltac:(lia) k3 r Hr3 Hk3) as (Hwf3 & Hr & _).
                 destruct (joined_pair_plain uni uni2 Hh Hl)
                   as (Hb & Hnh & Hnl).
                 cbv zeta in Hb, Hnh, Hnl.
                 split; [apply wf_str_cons; [exact Hb| |exact Hwf3]|].
                 { rewrite Hnh. discriminate. }
                 split; [exact Hr|]. rewrite Hnl. discriminate.
              ** apply cons_char_Some in Hscan as (k2 & -> & Hk2).
                 apply Hlone; [exact Hk2|].
                 intros c3 (? & ? & ? & ? & ? & Heq & Hd3).
                 injection Heq as -> -> -> -> -> -> ->.
                 rewrite Hd2 in Hd3. injection Hd3 as <-. exact Hl.
           ++ apply cons_char_Some in Hscan as (k2 & -> & Hk2).
              apply Hlone; [exact Hk2|].
              intros c3 (? & ? & ? & ? & ? & Heq & _).
              injection Heq as -> -> _. discriminate.
      * apply cons_char_Some in Hscan as (k2 & -> & Hk2).
        apply Hplain; [exact Hk2|]. discriminate.
    + destruct (backslash e) as [ch|] eqn:Hb; [|discriminate].
      apply cons_char_Some in Hscan as (k2 & -> & Hk2).
      destruct (backslash_plain e ch Hb) as (Hch & Hnh & Hnl).
      destruct (IH s2 ltac:(lia) k2 r Hs2 Hk2) as (Hwf2 & Hr & _).
      split; [apply wf_str_cons; [exact Hch| |exact Hwf2]|].
      { rewrite Hnh. discriminate. }
      split; [exact Hr|]. rewrite Hnl. discriminate.
  - destruct (c <? 32); [discriminate|].
    apply cons_char_Some in Hscan as (k2 & -> & Hk2).
    destruct (scalar_plain c Hc) as (Hb & Hnh & Hnl).
    destruct (IH s1 ltac:(lia) k2 r Hs1 Hk2) as (Hwf2 & Hr & _).
    split; [apply wf_str_cons; [exact Hb| |exact Hwf2]|].
    { rewrite Hnh. discriminate. }
    split; [exact Hr|]. rewrite Hnl. discriminate.
Qed.

Lemma scanstring_wf (s k r : str) :
  Forall (fun c => scalar c = true) s ->
  scanstring s = Some (k, r) ->
  wf_str k = true /\ Forall (fun c => scalar c = true) r.
Proof.
  intros Hs Hscan.
  destruct (scanstring_wf_bounded (length s) s (le_n _) k r Hs Hscan)
    as (Hwf & Hr & _).
  split; assumption.
Qed.

Section Rest.

Variable P : N -> Prop.

Lemma Forall_skip_ws (s : str) : Forall P s -> Forall P (skip_ws s).
Proof.
  induction 1 as [|c s Hc Hs IH]; cbn [skip_ws]; [constructor|].
  destruct (is_ws c); [exact IH|constructor; assumption].
Qed.

Lemma Forall_scan_digits (s : str) (acc : N) :
  Forall P s -> Forall P (snd (scan_digits acc s)).
Proof.
  intros Hs. revert acc.
  induction Hs as [|c s Hc Hs IH]; intros acc; cbn [scan_digits];
    [constructor|].
  destruct (is_digit c); [apply IH|constructor; assumption].
Qed.

Lemma Forall_scan_natural (s r : str) (n : N) :
  Forall P s -> scan_natural s = Some (n, r) -> Forall P r.
Proof.
  intros Hs. destruct s as [|d s']; [discriminate|]. cbn [scan_natural].
  pose proof (Forall_inv_tail Hs) as Hs'.
  destruct (d =? 48); [intros [= _ <-]; exact Hs'|].
  destruct (is_digit d); [|discriminate].
  pose proof (Forall_scan_digits s' (d - 48) Hs') as Hr.
  destruct (scan_digits (d - 48) s') as [n' r']. intros [= _ <-]. exact Hr.
Qed.

Lemma Forall_scan_int (s r : str) (z : Z) :
  Forall P s -> scan_int s = Some (z, r) -> Forall P r.
Proof.
  intros Hs. destruct s as [|c s']; [discriminate|]. cbn [scan_int].
  pose proof (Forall_inv_tail Hs) as Hs'.
  destruct (c =? 45).
  - destruct (scan_natural s') as [[n r']|] eqn:Hn; [|discriminate].
    destruct (float_tail r'); [discriminate|].
    destruct (within_int_limit n); [|discriminate]. intros [= _ <-].
    exact (Forall_scan_natural _ _ _ Hs' Hn).
  - destruct (scan_natural (c :: s')) as [[n r']|] eqn:Hn; [|discriminate].
    destruct (float_tail r'); [discriminate|].
    destruct (within_int_limit n); [|discriminate]. intros [= _ <-].
    exact (Forall_scan_natural _ _ _ Hs Hn).
Qed.

Lemma Forall_strip_prefix (lit s r : str) :
  Forall P s -> strip_prefix lit s = Some r -> Forall P r.
Proof.
  revert s. induction lit as [|a lit IH]; intros s Hs.
  - destruct s; intros [= <-]; exact Hs.
  - destruct s as [|b s']; [discriminate|]. cbn [strip_prefix].
    destruct (a =? b); [|discriminate]. apply IH, (Forall_inv_tail Hs).
Qed.

End Rest.

(** An integer the decoder returns is within the digit limit. *)
Lemma scan_int_within_limit (s r : str) (z : Z) :
  scan_int s = Some (z, r) -> within_int_limit (Z.abs_N z) = true.
Proof.
  destruct s as [|c s']; [discriminate|]. cbn [scan_int].
  destruct (if c =? 45 then scan_natural s' else scan_natural (c :: s'))
    as [[n r']|]; [|discriminate].
  destruct (float_tail r'); [discriminate|].
  destruct (within_int_limit n) eqn:Hn; [|discriminate].
  intros [= <- _]. destruct (c =? 45).
  - rewrite Zabs2N.inj_opp, Zabs2N.id. exact Hn.
  - rewrite Zabs2N.id. exact Hn.
Qed.

(** [dict(pairs)] has distinct keys, and holds only pairs it was given. *)
Lemma dict_set_keys (d : list (str * json)) (k k' : str) (v : json) :
  k' ∈ map fst (dict_set d k v) -> k' = k \/ k' ∈ map fst d.
Proof.
  induction d as [|[k0 v0] d IH]; cbn [dict_set map fst].
  - intros H. apply list_elem_of_singleton in H. left. exact H.
  - destruct (decide (k0 = k)) as [->|Hne]; cbn [map fst]; intros H;
      apply elem_of_cons in H as [->|H].
    + left. reflexivity.
    + right. apply elem_of_cons. right. exact H.
    + right. apply elem_of_cons. left. reflexivity.
    + destruct (IH H) as [->|Hin]; [left; reflexivity|].
      right. apply elem_of_cons. right. exact Hin.
Qed.

Lemma dict_set_nodup (d : list (str * json)) (k : str) (v : json) :
  NoDup (map fst d) -> NoDup (map fst (dict_set d k v)).
Proof.
  induction d as [|[k0 v0] d IH]; cbn [dict_set map fst]; intros Hnd.
  - apply NoDup_singleton.
  - apply NoDup_cons in Hnd as [Hk0 Hnd].
    destruct (decide (k0 = k)) as [->|Hne]; cbn [map fst].
    + apply NoDup_cons. split; assumption.
    + apply NoDup_cons. split; [|apply IH, Hnd].
      intros Hin. apply dict_set_keys in Hin as [->|Hin]; congruence.
Qed.

Lemma dict_set_forallb (Q : str * json -> bool) (d : list (str * json))
    (k : str) (v : json) :
  Q (k, v) = true -> forallb Q d = true -> forallb Q (dict_set d k v) = true.
Proof.
  intros Hkv. induction d as [|[k0 v0] d IH]; cbn [dict_set forallb]; intros Hd.
  - rewrite Hkv. reflexivity.
  - apply andb_prop in Hd as [H0 Hd].
    destruct (decide (k0 = k)); cbn [forallb].
    + rewrite Hkv, Hd. reflexivity.
    + rewrite H0, IH by exact Hd. reflexivity.
Qed.

Lemma dict_of_pairs_wf (Q : str * json -> bool) (ps : list (str * json)) :
  forallb Q ps = true ->
  forallb Q (dict_of_pairs ps) = true /\ NoDup (map fst (dict_of_pairs ps)).
Proof.
  unfold dict_of_pairs. intros Hps.
  enough (H : forall acc,
             forallb Q acc = true -> NoDup (map fst acc) ->
             let d := fold_left (fun d kv => dict_set d (fst kv) (snd kv))
                        ps acc in
             forallb Q d = true /\ NoDup (map fst d)).
  { apply (H []); [reflexivity|constructor]. }
  induction ps as [|[k v] ps IH]; intros acc Hacc Hnd; [split; assumption|].
  cbn [forallb] in Hps. apply andb_prop in Hps as [Hkv Hps].
  cbn [fold_left fst snd]. apply (IH Hps).
  - apply dict_set_forallb; assumption.
  - apply dict_set_nodup, Hnd.
Qed.

(** The three scanners return well-formed values and a rest of scalar
    values. *)
Lemma scan_wf (fuel : nat) :
  (forall s v r,
      Forall (fun c => scalar c = true) s ->
      scan_once fuel s = Some (v, r) ->
      wf_json v = true /\ Forall (fun c => scalar c = true) r)
  /\ (forall s vs r,
        Forall (fun c => scalar c = true) s ->
        scan_items fuel s = Some (vs, r) ->
        forallb wf_json vs = true /\ Forall (fun c => scalar c = true) r)
  /\ (forall s ps r,
        Forall (fun c => scalar c = true) s ->
        scan_members fuel s = Some (ps, r) ->
        forallb (fun kv => wf_str (fst kv) && wf_json (snd kv)) ps = true
        /\ Forall (fun c => scalar c = true) r).
Proof.
  induction fuel as [|fuel (IHonce & IHitems & IHmembers)].
  { repeat split; discriminate. }
  split; [|split].
  - intros s v r Hs. destruct s as [|c s1]; [discriminate|].
    pose proof (Forall_inv_tail Hs) as Hs1. cbn [scan_once].
    destruct (c =? 34).
    { destruct (scanstring s1) as [[k r']|] eqn:Hk; [|discriminate].
      intros [= <- <-]. exact (scanstring_wf _ _ _ Hs1 Hk). }
    destruct (c =? 123).
    { pose proof (Forall_skip_ws _ _ Hs1) as Hws.
      destruct (skip_ws s1) as [|c1 r1]; [discriminate|].
      pose proof (Forall_inv_tail Hws) as Hr1.
      destruct (c1 =? 125); [intros [= <- <-]; split; [reflexivity|exact Hr1]|].
      destruct (c1 =? 34); [|discriminate].
      destruct (scan_members fuel r1) as [[ps r']|] eqn:Hm; [|discriminate].
      intros [= <- <-]. destruct (IHmembers _ _ _ Hr1 Hm) as (Hps & Hr').
      split; [|exact Hr']. cbn [wf_json].
      destruct (dict_of_pairs_wf _ ps Hps) as (Hall & Hnd).
      rewrite Hall. apply bool_decide_eq_true. exact Hnd. }
    destruct (c =? 91).
    { pose proof (Forall_skip_ws _ _ Hs1) as Hws.
      destruct (skip_ws s1) as [|c1 r1]; [discriminate|].
      destruct (c1 =? 93).
      { intros [= <- <-]. split; [reflexivity|exact (Forall_inv_tail Hws)]. }
      destruct (scan_items fuel (c1 :: r1)) as [[vs r']|] eqn:Hi;
        [|discriminate].
      intros [= <- <-]. exact (IHitems _ _ _ Hws Hi). }
    destruct (c =? 110).
    { destruct (strip_prefix _ _) as [r'|] eqn:Hp; [|discriminate].
      intros [= <- <-]. split; [reflexivity|].
      exact (Forall_strip_prefix _ _ _ _ Hs Hp). }
    destruct (c =? 116).
    { destruct (strip_prefix _ _) as [r'|] eqn:Hp; [|discriminate].
      intros [= <- <-]. split; [reflexivity|].
      exact (Forall_strip_prefix _ _ _ _ Hs Hp). }
    destruct (c =? 102).
    { destruct (strip_prefix _ _) as [r'|] eqn:Hp; [|discriminate].
      intros [= <- <-]. split; [reflexivity|].
      exact (Forall_strip_prefix _ _ _ _ Hs Hp). }
    destruct (scan_int (c :: s1)) as [[z r']|] eqn:Hz; [|discriminate].
    intros [= <- <-]. split; [exact (scan_int_within_limit _ _ _ Hz)|].
    exact (Forall_scan_int _ _ _ _ Hs Hz).
  - intros s vs r Hs. rewrite scan_items_S.
    destruct (scan_once fuel s) as [[v r0]|] eqn:Hv; [|discriminate].
    destruct (IHonce _ _ _ Hs Hv) as (Hwf & Hr0).
    pose proof (Forall_skip_ws _ _ Hr0) as Hws.
    destruct (skip_ws r0) as [|c r1]; [discriminate|].
    pose proof (Forall_inv_tail Hws) as Hr1.
    destruct (c =? 93).
    { intros [= <- <-]. cbn [forallb]. rewrite Hwf. split; [reflexivity|].
      exact Hr1. }
    destruct (c =? 44); [|discriminate].
    destruct (scan_items fuel (skip_ws r1)) as [[vs' r']|] eqn:Hi;
      [|discriminate].
    intros [= <- <-].
    destruct (IHitems _ _ _ (Forall_skip_ws _ _ Hr1) Hi) as (Hvs & Hr').
    cbn [forallb]. rewrite Hwf, Hvs. split; [reflexivity|exact Hr'].
  - intros s ps r Hs. rewrite scan_members_S.
    destruct (scanstring s) as [[k r0]|] eqn:Hk; [|discriminate].
    destruct (scanstring_wf _ _ _ Hs Hk) as (Hwk & Hr0).
    pose proof (Forall_skip_ws _ _ Hr0) as Hws.
    destruct (skip_ws r0) as [|c r1]; [discriminate|].
    pose proof (Forall_inv_tail Hws) as Hr1.
    destruct (c =? 58); [|discriminate].
    destruct (scan_once fuel (skip_ws r1)) as [[v r2]|] eqn:Hv; [|discriminate].
    destruct (IHonce _ _ _ (Forall_skip_ws _ _ Hr1) Hv) as (Hwf & Hr2).
    pose proof (Forall_skip_ws _ _ Hr2) as Hws2.
    destruct (skip_ws r2) as [|c2 r3]; [discriminate|].
    pose proof (Forall_inv_tail Hws2) as Hr3.
    destruct (c2 =? 125).
    { intros [= <- <-]. cbn [forallb fst snd]. rewrite Hwk, Hwf.
      split; [reflexivity|exact Hr3]. }
    destruct (c2 =? 44); [|discriminate].
    pose proof (Forall_skip_ws _ _ Hr3) as Hws3.
    destruct (skip_ws r3) as [|q r4]; [discriminate|].
    destruct (q =? 34); [|discriminate].
    destruct (scan_members fuel r4) as [[ps' r']|] eqn:Hm; [|discriminate].
    intros [= <- <-].
    destruct (IHmembers _ _ _ (Forall_inv_tail Hws3) Hm) as (Hps & Hr').
    cbn [forallb fst snd]. rewrite Hwk, Hwf, Hps. split; [reflexivity|exact Hr'].
Qed.

(** Every value [json.loads] returns on a text of scalar values is
    well formed. *)
Theorem json_loads_wf (s : str) (v : json) :
  Forall (fun c => scalar c = true) s ->
  json_loads s = Some v ->
  wf_json v = true.
Proof.
  intros Hs. unfold json_loads.
  destruct (scan_once (length s) (skip_ws s)) as [[v' r]|] eqn:Hv;
    [|discriminate].
  destruct (skip_ws r); [|discriminate]. intros [= <-].
  apply (proj1 (scan_wf (length s)) _ _ _ (Forall_skip_ws _ _ Hs) Hv).
Qed.

(** ** The digit limit of [int] *)






(** * Properties of the bridge *)

Section Bridge.

Variable API_BASE : str.
Variable INTERNAL_KEY : str.
Variable backend : list Request -> Reply.

Local Abbreviation api := (_api API_BASE INTERNAL_KEY backend).
Local Abbreviation tool := (invoke API_BASE INTERNAL_KEY backend).
Local Abbreviation serve := (run API_BASE INTERNAL_KEY backend).

(** One call of [_api], in closed form: the request it puts on the wire,
    the world it leaves and its outcome. *)
Lemma _api_closed_form method path user_id kwargs w :
  let session := session_at_build user_id w in
  let r := {| req_method := method; req_url := API_BASE ++ path;
              req_headers := headers_built INTERNAL_KEY kwargs session;
              req_timeout := 30; req_params := kw_params kwargs;
              req_json := kw_json kwargs |} in
  api method path user_id kwargs w =
    (match backend (r :: wire w) with
     | Answered resp => settle resp
     | Failed e => Raised e
     end,
     {| _session_user_id := session; wire := r :: wire w |}).
Proof.
  unfold _api, session_at_build, headers_built, bind, get_session,
    set_session, requests_request, settle.
  destruct (truthy user_id) eqn:Hu; cbn.
  - destruct user_id as [[|c s]|]; try discriminate. cbn.
    destruct (backend _) as [resp|e]; [|reflexivity].
    unfold raise_for_status, Response_json, raise, ret.
    destruct (_ && _); [reflexivity|]. destruct (_ && _); [reflexivity|].
    cbn. destruct (json_body resp); reflexivity.
  - destruct w as [[[|c s]|] ws]; cbn;
      (destruct (backend _) as [resp|e]; [|reflexivity]);
      unfold raise_for_status, Response_json, raise, ret;
      (destruct (_ && _); [reflexivity|]); (destruct (_ && _); [reflexivity|]);
      cbn; destruct (json_body resp); reflexivity.
Qed.

(** Every tool is one call of [_api], with the user identifier the call
    carries and no headers of its own, followed by [json.dumps]. *)
Lemma invoke_is_api (c : Call) :
  exists method path kwargs,
    kw_headers kwargs = None /\
    tool c = (let* result := api method path (call_user_id c) kwargs in
                ret (json_dumps result)).
Proof.
  destruct c; cbn; do 3 eexists; (split; [|reflexivity]); reflexivity.
Qed.

(** One tool invocation, in closed form. *)
Lemma tool_closed_form (c : Call) (w : World) :
  exists r,
    snd (tool c w) =
      {| _session_user_id := session_at_build (call_user_id c) w;
         wire := r :: wire w |} /\
    req_headers r =
      headers_built INTERNAL_KEY no_kwargs
        (session_at_build (call_user_id c) w) /\
    req_timeout r = 30%Z /\
    fst (tool c w) =
      match backend (r :: wire w) with
      | Answered resp =>
          match settle resp with
          | Returned v => Returned (json_dumps v)
          | Raised e => Raised e
          end
      | Failed e => Raised e
      end.
Proof.
  destruct (invoke_is_api c) as (m & p & kw & Hkw & ->).
  unfold bind. rewrite _api_closed_form. cbv zeta.
  eexists. split; [|split; [|split]].
  - destruct (backend _) as [resp|e]; [destruct (settle resp)|]; reflexivity.
  - cbn. unfold headers_built. rewrite Hkw. reflexivity.
  - reflexivity.
  - destruct (backend _) as [resp|e]; [destruct (settle resp)|]; reflexivity.
Qed.

Lemma session_at_build_truthy (u : option str) (w : World) :
  truthy u = true -> session_at_build u w = u.
Proof. unfold session_at_build. intros ->. reflexivity. Qed.

Lemma last_user_id_truthy (calls : list Call) (u : str) :
  last_user_id calls = Some u -> truthy (Some u) = true.
Proof.
  induction calls as [|c rest IH]; cbn; [discriminate|].
  destruct (last_user_id rest) as [u'|].
  - intros [= ->]. apply IH. reflexivity.
  - destruct (truthy (call_user_id c)) eqn:Hc; [|discriminate].
    intros Heq. rewrite Heq in Hc. exact Hc.
Qed.

Lemma serve_cons (c : Call) (calls : list Call) (w : World) :
  serve (c :: calls) w = serve calls (snd (tool c w)).
Proof. reflexivity. Qed.

Lemma session_tool (c : Call) (w : World) :
  _session_user_id (snd (tool c w)) = session_at_build (call_user_id c) w.
Proof.
  destruct (tool_closed_form c w) as (r & -> & _). reflexivity.
Qed.

(** The session identity after a sequence of invocations is the identifier
    supplied last, or what it was when none was supplied. *)
Lemma session_serve (calls : list Call) (w : World) :
  _session_user_id (serve calls w) =
    match last_user_id calls with
    | Some u => Some u
    | None => _session_user_id w
    end.
Proof.
  revert w. induction calls as [|c rest IH]; intros w; [reflexivity|].
  rewrite serve_cons, IH, session_tool. cbn [last_user_id].
  destruct (last_user_id rest); [reflexivity|].
  unfold session_at_build. destruct (truthy (call_user_id c)) eqn:Hc.
  - destruct (call_user_id c); [reflexivity|discriminate].
  - reflexivity.
Qed.

Lemma session_serve_boot (calls : list Call) :
  _session_user_id (serve calls boot) = last_user_id calls.
Proof. rewrite session_serve. destruct (last_user_id calls); reflexivity. Qed.

(** With no headers from the caller, [X-User-Id] is there exactly for a
    non-empty session identity. *)
Lemma headers_built_user (session : option str) :
  headers_built INTERNAL_KEY no_kwargs session !! py "X-User-Id" =
    if truthy session then session else None.
Proof.
  unfold headers_built. destruct session as [[|c s]|]; cbn.
  - rewrite lookup_insert_ne by discriminate. apply lookup_empty.
  - apply lookup_insert_eq.
  - rewrite lookup_insert_ne by discriminate. apply lookup_empty.
Qed.

Lemma headers_built_key (kwargs : Kwargs) (session : option str) :
  headers_built INTERNAL_KEY kwargs session !! py "X-Internal-Key"
    = Some INTERNAL_KEY.
Proof.
  unfold headers_built. destruct session as [[|c s]|]; cbn.
  - apply lookup_insert_eq.
  - rewrite lookup_insert_ne by discriminate. apply lookup_insert_eq.
  - apply lookup_insert_eq.
Qed.

Lemma user_header_tool (c : Call) (w : World) :
  exists r,
    wire (snd (tool c w)) = r :: wire w /\
    user_header r =
      if truthy (session_at_build (call_user_id c) w)
      then session_at_build (call_user_id c) w else None.
Proof.
  destruct (tool_closed_form c w) as (r & Hw & Hh & _).
  exists r. rewrite Hw. split; [reflexivity|].
  unfold user_header. rewrite Hh. apply headers_built_user.
Qed.

(** In a world the server can reach, the session identity is unset or a
    non-empty identifier. *)
Lemma session_reachable (prior : list Call) (c : Call) :
  let s := session_at_build (call_user_id c) (serve prior boot) in
  (if truthy s then s else None) = s.
Proof.
  cbv zeta. unfold session_at_build.
  destruct (truthy (call_user_id c)) eqn:Hc; [rewrite Hc; reflexivity|].
  rewrite session_serve_boot.
  destruct (last_user_id prior) as [u|] eqn:Hl; [|reflexivity].
  rewrite (last_user_id_truthy _ _ Hl). reflexivity.
Qed.

(** ** Session identity and the [X-User-Id] header *)

Lemma user_header_reachable (prior : list Call) (c : Call) :
  exists r,
    wire (snd (tool c (serve prior boot))) = r :: wire (serve prior boot) /\
    user_header r = session_at_build (call_user_id c) (serve prior boot).
Proof.
  destruct (user_header_tool c (serve prior boot)) as (r & Hw & Hh).
  rewrite session_reachable in Hh. exists r. split; assumption.
Qed.

(** C1. For every invocation the server makes of the bridge, after any
    sequence of earlier invocations, the request on the wire carries
    [X-User-Id] if and only if the session identity is set when the request
    is built, and then with that identity as its value. A tool without a
    [user_id] invoked after one that supplied an identifier sends that same
    identifier; a tool without a [user_id] invoked first sends no
    [X-User-Id] at all. The same holds of [_api] taken alone, called as
    the tools call it (no headers of the caller's) in a world whose
    identity is unset or non-empty. *)
Theorem C1_user_header_iff_session_identity :
  (forall (prior : list Call) (c : Call),
      let w := serve prior boot in
      exists r,
        wire (snd (tool c w)) = r :: wire w /\
        user_header r = session_at_build (call_user_id c) w /\
        (is_Some (user_header r)
         <-> is_Some (session_at_build (call_user_id c) w)) /\
        _session_user_id (snd (tool c w))
          = session_at_build (call_user_id c) w)
  /\ (forall (prior : list Call) (c c' : Call),
        truthy (call_user_id c) = true ->
        call_user_id c' = None ->
        let w := serve prior boot in
        let w1 := snd (tool c w) in
        exists r r',
          wire w1 = r :: wire w /\
          wire (snd (tool c' w1)) = r' :: wire w1 /\
          user_header r = call_user_id c /\
          user_header r' = call_user_id c)
  /\ (forall c : Call,
        call_user_id c = None ->
        exists r, wire (snd (tool c boot)) = [r] /\ user_header r = None)
  /\ (forall (method path : str) (user_id : option str) (kwargs : Kwargs)
             (w : World),
        kw_headers kwargs = None ->
        _session_user_id w <> Some [] ->
        exists r,
          wire (snd (api method path user_id kwargs w)) = r :: wire w /\
          user_header r = session_at_build user_id w).
Proof.
  split; [|split; [|split]].
  - intros prior c w.
    destruct (user_header_tool c w) as (r & Hw & Hh).
    unfold w in Hh. rewrite session_reachable in Hh.
    exists r. split; [exact Hw|]. split; [exact Hh|]. split.
    + fold w in Hh. rewrite Hh. reflexivity.
    + apply session_tool.
  - intros prior c c' Hc Hc' w w1.
    destruct (user_header_tool c w) as (r & Hw & Hh).
    destruct (user_header_tool c' w1) as (r' & Hw' & Hh').
    exists r, r'. split; [exact Hw|]. split; [exact Hw'|].
    rewrite (session_at_build_truthy _ _ Hc), Hc in Hh.
    split; [exact Hh|].
    rewrite Hh'. rewrite Hc'. unfold session_at_build at 1 2. cbn.
    unfold w1. rewrite session_tool, (session_at_build_truthy _ _ Hc), Hc.
    reflexivity.
  - intros c Hc.
    destruct (user_header_tool c boot) as (r & Hw & Hh).
    exists r. split; [exact Hw|]. rewrite Hh, Hc. reflexivity.
  - intros method path user_id kwargs w Hkw Hw.
    rewrite _api_closed_form. cbv zeta. eexists. split; [reflexivity|].
    unfold user_header, headers_built. cbn [req_headers]. rewrite Hkw.
    cbn [default]. unfold session_at_build.
    destruct (truthy user_id) eqn:Hu.
    + destruct user_id as [[|c s]|]; try discriminate. apply lookup_insert_eq.
    + destruct (_session_user_id w) as [[|c s]|]; [congruence| |].
      * apply lookup_insert_eq.
      * rewrite lookup_insert_ne by discriminate. apply lookup_empty.
Qed.

(** C2. When [_api] is given a user identifier (a non-empty one, the test
    being [if user_id:]), the session identity is that identifier by the
    time the request is built: the request the backend receives carries it
    in [X-User-Id], and the identity stays. *)
Theorem C2_identity_overwritten_before_request
    (method path u : str) (kwargs : Kwargs) (w : World) :
  truthy (Some u) = true ->
  exists r,
    snd (api method path (Some u) kwargs w)
      = {| _session_user_id := Some u; wire := r :: wire w |} /\
    user_header r = Some u /\
    fst (api method path (Some u) kwargs w)
      = match backend (r :: wire w) with
        | Answered resp => settle resp
        | Failed e => Raised e
        end.
Proof.
  intros Hu. rewrite _api_closed_form. cbv zeta.
  rewrite (session_at_build_truthy _ _ Hu).
  eexists. split; [reflexivity|]. split; [|reflexivity].
  unfold user_header, headers_built. cbn [req_headers].
  destruct u as [|c s]; [discriminate|]. apply lookup_insert_eq.
Qed.

(** C3. Every request of the bridge carries [X-Internal-Key], with the
    configured key, whatever the arguments and the session identity; so
    does the request of every tool invocation. *)
Theorem C3_internal_key_on_every_request :
  (forall (method path : str) (user_id : option str) (kwargs : Kwargs)
          (w : World),
      exists r,
        wire (snd (api method path user_id kwargs w)) = r :: wire w /\
        internal_key_header r = Some INTERNAL_KEY)
  /\ (forall (c : Call) (w : World),
        exists r,
          wire (snd (tool c w)) = r :: wire w /\
          internal_key_header r = Some INTERNAL_KEY).
Proof.
  split.
  - intros method path user_id kwargs w. rewrite _api_closed_form. cbv zeta.
    eexists. split; [reflexivity|]. apply headers_built_key.
  - intros c w. destruct (tool_closed_form c w) as (r & Hw & Hh & _).
    exists r. rewrite Hw. split; [reflexivity|].
    unfold internal_key_header. rewrite Hh. apply headers_built_key.
Qed.

(** ** Failures *)



(** ** Request bodies *)

(** C7. [search_leads] called with none of its optional filters sends the
    body [{"filters": {}}]: the filter object has no key at all. *)
Theorem C7_search_leads_without_filters (user_id : str) (w : World) :
  exists r,
    wire (snd (tool (Call_search_leads user_id None None None None) w))
      = r :: wire w /\
    req_json r = Some (JDict [(py "filters", JDict [])]).
Proof.
  cbn. unfold search_leads, bind. rewrite _api_closed_form. cbv zeta.
  eexists. split.
  - destruct (backend _) as [resp|e]; [destruct (settle resp)|]; reflexivity.
  - reflexivity.
Qed.

(** ** Lifecycle of the session identity *)

(** C8. The session identity is unset when the process starts; an
    invocation that carries a (non-empty) user identifier sets it to that
    identifier, any other leaves it as it is; so after any sequence of
    invocations it is the identifier supplied last, and once set it is
    never unset again. *)
Theorem C8_session_identity_lifecycle :
  _session_user_id boot = None
  /\ (forall (c : Call) (w : World),
        _session_user_id (snd (tool c w))
          = if truthy (call_user_id c) then call_user_id c
            else _session_user_id w)
  /\ (forall (calls : list Call) (w : World),
        _session_user_id (serve calls w)
          = match last_user_id calls with
            | Some u => Some u
            | None => _session_user_id w
            end)
  /\ (forall (calls : list Call) (w : World),
        is_Some (_session_user_id w) ->
        is_Some (_session_user_id (serve calls w))).
Proof.
  split; [reflexivity|]. split; [|split].
  - intros c w. apply session_tool.
  - apply session_serve.
  - intros calls w Hs. rewrite session_serve.
    destruct (last_user_id calls); [eexists; reflexivity|exact Hs].
Qed.

(** C9. When [_api] is given a non-empty user identifier and then fails,
    whatever the error (an HTTP error status, a transport failure, a body
    that is not JSON), the session identity is the new identifier
    afterwards, and the next invocation of a tool without a [user_id]
    sends it in [X-User-Id]. *)
Theorem C9_identity_kept_on_failure
    (method path u : str) (kwargs : Kwargs) (w : World) (e : Exn) (c' : Call) :
  truthy (Some u) = true ->
  fst (api method path (Some u) kwargs w) = Raised e ->
  call_user_id c' = None ->
  let w1 := snd (api method path (Some u) kwargs w) in
  _session_user_id w1 = Some u
  /\ exists r',
       wire (snd (tool c' w1)) = r' :: wire w1 /\ user_header r' = Some u.
Proof.
  intros Hu _ Hc' w1.
  assert (Hs : _session_user_id w1 = Some u).
  { unfold w1. rewrite _api_closed_form. cbv zeta. cbn [snd _session_user_id].
    apply session_at_build_truthy, Hu. }
  split; [exact Hs|].
  destruct (user_header_tool c' w1) as (r' & Hw' & Hh').
  exists r'. split; [exact Hw'|].
  rewrite Hh', Hc'. unfold session_at_build. cbn [truthy].
  rewrite Hs, Hu. reflexivity.
Qed.

(** C10. An empty user identifier counts as none: [_api] called with
    the empty string as [user_id] leaves the session identity as it was, and the request
    of a tool invoked with an empty [user_id] carries in [X-User-Id] the
    identity of before, or no such header when there was none; never the
    empty string. *)
Theorem C10_empty_user_id_is_absent :
  (forall (method path : str) (kwargs : Kwargs) (w : World),
      _session_user_id (snd (api method path (Some []) kwargs w))
        = _session_user_id w)
  /\ (forall (prior : list Call) (c : Call),
        call_user_id c = Some [] ->
        let w := serve prior boot in
        _session_user_id (snd (tool c w)) = _session_user_id w
        /\ exists r,
             wire (snd (tool c w)) = r :: wire w /\
             user_header r = _session_user_id w /\
             user_header r <> Some []).
Proof.
  split.
  - intros method path kwargs w. rewrite _api_closed_form. reflexivity.
  - intros prior c Hc w.
    split; [rewrite session_tool, Hc; reflexivity|].
    destruct (user_header_reachable prior c) as (r & Hw & Hh).
    exists r. split; [exact Hw|].
    fold w in Hh. rewrite Hc in Hh. unfold session_at_build in Hh.
    cbn [truthy] in Hh. split; [exact Hh|].
    rewrite Hh. unfold w. rewrite session_serve_boot.
    intros Hl. apply last_user_id_truthy in Hl. discriminate.
Qed.

(** ** The response on its way back *)


End Bridge.

(** * Concrete runs *)

(** C1 on a run: [list_leads("u1")] and then [enrich_lead("l1")] both send
    [X-User-Id: u1]. *)
Lemma C1_witness :
  let tool := invoke dev_API_BASE dev_INTERNAL_KEY (answering resp_leads) in
  let c := Call_list_leads (py "u1") None in
  let c' := Call_enrich_lead (py "l1") in
  let w := run dev_API_BASE dev_INTERNAL_KEY (answering resp_leads) [] boot in
  let w1 := snd (tool c w) in
  exists r r',
    wire w1 = r :: wire w /\
    wire (snd (tool c' w1)) = r' :: wire w1 /\
    user_header r = call_user_id c /\
    user_header r' = call_user_id c.
Proof.
  apply (proj1 (proj2 (C1_user_header_iff_session_identity
                         dev_API_BASE dev_INTERNAL_KEY (answering resp_leads)))
           [] (Call_list_leads (py "u1") None) (Call_enrich_lead (py "l1")));
    reflexivity.
Defined.

(** C2 on a run: the request of [_api] with [user_id="u1"] carries it. *)
Lemma C2_witness :
  exists r,
    snd (_api dev_API_BASE dev_INTERNAL_KEY (answering resp_leads)
           (py "GET") (py "/leads/list") (Some (py "u1")) no_kwargs boot)
      = {| _session_user_id := Some (py "u1"); wire := r :: wire boot |} /\
    user_header r = Some (py "u1") /\
    fst (_api dev_API_BASE dev_INTERNAL_KEY (answering resp_leads)
           (py "GET") (py "/leads/list") (Some (py "u1")) no_kwargs boot)
      = match answering resp_leads (r :: wire boot) with
        | Answered resp => settle resp
        | Failed e => Raised e
        end.
Proof.
  apply (C2_identity_overwritten_before_request
           dev_API_BASE dev_INTERNAL_KEY (answering resp_leads)
           (py "GET") (py "/leads/list") (py "u1") no_kwargs boot).
  reflexivity.
Defined.





(** C8 on a run: after [list_leads("u1")], [get_lead("l1")] leaves the
    identity set. *)
Lemma C8_witness :
  is_Some
    (_session_user_id
       (run dev_API_BASE dev_INTERNAL_KEY (answering resp_leads)
          [Call_get_lead (py "l1")]
          (run dev_API_BASE dev_INTERNAL_KEY (answering resp_leads)
             [Call_list_leads (py "u1") None] boot))).
Proof.
  apply (proj2 (proj2 (proj2 (C8_session_identity_lifecycle
                                dev_API_BASE dev_INTERNAL_KEY
                                (answering resp_leads))))).
  exists (py "u1"). reflexivity.
Defined.

(** C9 on a run: the backend answers 500 to a call with [user_id="u1"];
    the identity is [u1] afterwards and [enrich_lead] sends it. *)
Lemma C9_witness :
  let w1 := snd (_api dev_API_BASE dev_INTERNAL_KEY (answering resp_500)
                   (py "GET") (py "/leads/list") (Some (py "u1")) no_kwargs
                   boot) in
  _session_user_id w1 = Some (py "u1")
  /\ exists r',
       wire (snd (invoke dev_API_BASE dev_INTERNAL_KEY (answering resp_500)
                    (Call_enrich_lead (py "l1")) w1)) = r' :: wire w1 /\
       user_header r' = Some (py "u1").
Proof.
  apply (C9_identity_kept_on_failure
           dev_API_BASE dev_INTERNAL_KEY (answering resp_500)
           (py "GET") (py "/leads/list") (py "u1") no_kwargs boot
           (HTTPError
              (py "500 Server Error: Internal Server Error for url: http://localhost:5000/leads/list")
              resp_500)
           (Call_enrich_lead (py "l1")));
    reflexivity.
Defined.

(** C10 on a run: after [list_leads("u1")], [list_leads] with the empty
    string as [user_id] still sends [X-User-Id: u1]. *)
Lemma C10_witness :
  let w := run dev_API_BASE dev_INTERNAL_KEY (answering resp_leads)
             [Call_list_leads (py "u1") None] boot in
  let c := Call_list_leads [] None in
  _session_user_id
    (snd (invoke dev_API_BASE dev_INTERNAL_KEY (answering resp_leads) c w))
    = _session_user_id w
  /\ exists r,
       wire (snd (invoke dev_API_BASE dev_INTERNAL_KEY (answering resp_leads)
                    c w)) = r :: wire w /\
       user_header r = _session_user_id w /\
       user_header r <> Some [].
Proof.
  apply (proj2 (C10_empty_user_id_is_absent
                  dev_API_BASE dev_INTERNAL_KEY (answering resp_leads))
           [Call_list_leads (py "u1") None] (Call_list_leads [] None)).
  reflexivity.
Defined.



(** * Further properties of the encoder *)

Lemma is_digit_ascii (c : N) : is_digit c = true -> is_ascii_text c = true.
Proof.
  unfold is_digit, is_ascii_text. intros H. apply andb_prop in H as [H1 H2].
  apply N.leb_le in H1, H2. apply orb_true_intro. right.
  apply andb_true_intro. split; apply N.leb_le; lia.
Qed.

Lemma hex_digit_ascii (d : N) : d < 16 -> is_ascii_text (hex_digit d) = true.
Proof.
  intros Hd. unfold hex_digit, is_ascii_text. apply orb_true_intro. right.
  destruct (d <? 10) eqn:H10; [apply N.ltb_lt in H10|apply N.ltb_ge in H10];
    apply andb_true_intro; split; apply N.leb_le; lia.
Qed.

Lemma escape_u_ascii (n : N) :
  Forall (fun c => is_ascii_text c = true) (escape_u n).
Proof.
  unfold escape_u.
  repeat (constructor;
          [first [reflexivity
                 | apply hex_digit_ascii, N.mod_lt; discriminate]|]).
  constructor.
Qed.

Lemma escape_char_ascii (c : N) :
  Forall (fun c => is_ascii_text c = true) (escape_char c).
Proof.
  unfold escape_char.
  repeat (match goal with
          | |- context [if ?x =? ?y then _ else _] => destruct (x =? y)
          end; [repeat constructor|]).
  destruct ((32 <=? c) && (c <=? 126)) eqn:Hp.
  { constructor; [|constructor]. unfold is_ascii_text. rewrite Hp.
    apply orb_true_r. }
  destruct (c <? 65536); [apply escape_u_ascii|].
  apply Forall_app. split; apply escape_u_ascii.
Qed.

Lemma encode_basestring_ascii_ascii (s : str) :
  Forall (fun c => is_ascii_text c = true) (encode_basestring_ascii s).
Proof.
  unfold encode_basestring_ascii. constructor; [reflexivity|].
  apply Forall_app. split; [|repeat constructor].
  induction s as [|c s IH]; [constructor|]. cbn [flat_map].
  apply Forall_app. split; [apply escape_char_ascii|exact IH].
Qed.

Lemma str_of_int_ascii (z : Z) :
  Forall (fun c => is_ascii_text c = true) (str_of_int z).
Proof.
  assert (H : forall n, Forall (fun c => is_ascii_text c = true) (str_of_N n)).
  { intros n. destruct (str_of_N_spec n) as (d & ds & -> & Hall & _).
    eapply Forall_impl; [exact Hall|]. apply is_digit_ascii. }
  destruct z; cbn [str_of_int]; [apply H|apply H|].
  constructor; [reflexivity|apply H].
Qed.

Lemma newline_indent_ascii (level : nat) :
  Forall (fun c => is_ascii_text c = true) (newline_indent level).
Proof.
  unfold newline_indent. constructor; [reflexivity|].
  induction (2 * level)%nat; constructor; [reflexivity|assumption].
Qed.

(** With [ensure_ascii], the encoder writes line feeds and printable ASCII
    only. *)
Lemma iterencode_ascii (v : json) :
  forall level : nat,
    Forall (fun c => is_ascii_text c = true) (iterencode level v).
Proof.
  induction v as [|b|z|s|l IH|ps IH] using json_induction; intros level.
  - repeat constructor.
  - destruct b; repeat constructor.
  - apply str_of_int_ascii.
  - apply encode_basestring_ascii_ascii.
  - destruct l as [|x xs]; [repeat constructor|].
    rewrite iterencode_list. constructor; [reflexivity|].
    rewrite !Forall_app. split; [apply newline_indent_ascii|].
    split; [apply (Forall_inv IH)|].
    split; [|split; [apply newline_indent_ascii|repeat constructor]].
    pose proof (Forall_inv_tail IH) as IHxs. clear -IHxs.
    induction IHxs as [|y ys Hy _ IHys]; [constructor|].
    cbn [items_tail]. fold (items_tail (S level)).
    constructor; [reflexivity|]. rewrite !Forall_app.
    split; [apply newline_indent_ascii|]. split; [apply Hy|exact IHys].
  - destruct ps as [|[k x] ps]; [repeat constructor|].
    rewrite iterencode_dict. constructor; [reflexivity|].
    rewrite !Forall_app. split; [apply newline_indent_ascii|].
    split; [apply encode_basestring_ascii_ascii|].
    split; [repeat constructor|].
    split; [apply (Forall_inv IH)|].
    split; [|split; [apply newline_indent_ascii|repeat constructor]].
    pose proof (Forall_inv_tail IH) as IHps. clear -IHps.
    induction IHps as [|[k' y] ys Hy _ IHys]; [constructor|].
    cbn [members_tail]. fold (members_tail (S level)).
    constructor; [reflexivity|]. rewrite !Forall_app.
    split; [apply newline_indent_ascii|].
    split; [apply encode_basestring_ascii_ascii|].
    split; [repeat constructor|]. split; [apply Hy|exact IHys].
Qed.

(** * Further properties of the bridge and the tools *)

Section Coverage.

Variable API_BASE : str.
Variable INTERNAL_KEY : str.
Variable backend : list Request -> Reply.

Local Abbreviation api := (_api API_BASE INTERNAL_KEY backend).
Local Abbreviation tool := (invoke API_BASE INTERNAL_KEY backend).
Local Abbreviation serve := (run API_BASE INTERNAL_KEY backend).

(** The shape of the bridge call behind every tool: the method goes with
    the kind of payload, the path starts with a slash, and no key of the
    body or of the query is [user_id]. *)
Lemma invoke_shape (c : Call) :
  exists method path kwargs,
    tool c = (let* result := api method (47 :: path) (call_user_id c) kwargs in
              ret (json_dumps result)) /\
    kw_headers kwargs = None /\
    (method = py "GET" /\ kw_json kwargs = None
     \/ method = py "POST" /\ kw_params kwargs = None) /\
    (py "user_id" ∉ body_keys (kw_json kwargs)) /\
    (default ∅ (kw_params kwargs)) !! py "user_id" = None.
Proof.
  destruct c; cbn [invoke]; do 3 eexists;
    (split; [reflexivity|]); (split; [reflexivity|]);
    (split; [first [left; split; reflexivity | right; split; reflexivity]|]);
    (split; [cbn; apply (bool_decide_eq_false_1 _); reflexivity|]).
  all: try reflexivity.
  destruct temperature as [[|a s]|]; reflexivity.
Qed.

(** One tool invocation, with the whole request. *)
Lemma tool_sends (c : Call) (w : World) :
  exists method path kwargs r,
    r = {| req_method := method; req_url := API_BASE ++ 47 :: path;
           req_headers :=
             headers_built INTERNAL_KEY no_kwargs
               (session_at_build (call_user_id c) w);
           req_timeout := 30; req_params := kw_params kwargs;
           req_json := kw_json kwargs |} /\
    (method = py "GET" /\ kw_json kwargs = None
     \/ method = py "POST" /\ kw_params kwargs = None) /\
    (py "user_id" ∉ body_keys (kw_json kwargs)) /\
    (default ∅ (kw_params kwargs)) !! py "user_id" = None /\
    snd (tool c w) =
      {| _session_user_id := session_at_build (call_user_id c) w;
         wire := r :: wire w |} /\
    fst (tool c w) =
      match backend (r :: wire w) with
      | Answered resp =>
          match settle resp with
          | Returned v => Returned (json_dumps v)
          | Raised e => Raised e
          end
      | Failed e => Raised e
      end.
Proof.
  destruct (invoke_shape c) as (m & p & kw & -> & Hkw & Hm & Hb & Hp).
  exists m, p, kw. eexists. split; [reflexivity|].
  split; [exact Hm|]. split; [exact Hb|]. split; [exact Hp|].
  unfold bind. rewrite _api_closed_form. cbv zeta.
  unfold headers_built. rewrite Hkw. cbn [kw_headers no_kwargs].
  split; (destruct (backend _) as [resp|e]; [destruct (settle resp)|]);
    reflexivity.
Qed.


(** ** What a request carries *)

(** X1. The [headers] argument a tool invocation hands to
    [requests.request] holds [X-Internal-Key], and [X-User-Id] when the
    session identity is set, and no other key: the bridge sets no header
    besides these two (the library adds its own on the way out). *)
Theorem tool_headers_exact (c : Call) (w : World) :
  exists r,
    wire (snd (tool c w)) = r :: wire w /\
    req_headers r =
      match session_at_build (call_user_id c) w with
      | Some (a :: s) =>
          <[py "X-User-Id" := a :: s]>
            {[py "X-Internal-Key" := INTERNAL_KEY]}
      | _ => {[py "X-Internal-Key" := INTERNAL_KEY]}
      end.
Proof.
  destruct (tool_sends c w) as (m & p & kw & r & -> & _ & _ & _ & Hw & _).
  eexists. rewrite Hw. split; [reflexivity|].
  cbn [req_headers]. unfold headers_built. cbn [kw_headers no_kwargs default].
  rewrite insert_empty. reflexivity.
Qed.

(** X2. Headers handed to [_api] by its caller go out as they are, but
    for the two the bridge sets: [X-Internal-Key] is always overwritten
    with the configured key, [X-User-Id] is overwritten when the session
    identity is set and left as the caller gave it when it is not. *)
Theorem api_caller_headers
    (method path : str) (user_id : option str) (kwargs : Kwargs) (w : World)
    (h : gmap str str) :
  kw_headers kwargs = Some h ->
  exists r,
    wire (snd (api method path user_id kwargs w)) = r :: wire w /\
    internal_key_header r = Some INTERNAL_KEY /\
    user_header r =
      (if truthy (session_at_build user_id w)
       then session_at_build user_id w else h !! py "X-User-Id") /\
    (forall k,
        k <> py "X-Internal-Key" -> k <> py "X-User-Id" ->
        req_headers r !! k = h !! k).
Proof.
  intros Hh. rewrite _api_closed_form. cbv zeta. eexists.
  split; [reflexivity|]. split; [apply headers_built_key|].
  unfold user_header, headers_built. cbn [req_headers]. rewrite Hh.
  cbn [default]. split.
  - destruct (session_at_build user_id w) as [[|a s]|]; cbn [truthy].
    + apply lookup_insert_ne. discriminate.
    + apply lookup_insert_eq.
    + apply lookup_insert_ne. discriminate.
  - intros k Hk Hu.
    destruct (session_at_build user_id w) as [[|a s]|];
      rewrite ?(lookup_insert_ne _ (py "X-User-Id")) by congruence;
      apply lookup_insert_ne; congruence.
Qed.

(** X3. [search_leads] posts to [/leads/search] a body with the single
    key [filters]; a filter is among them exactly when its argument is a
    non-empty list or string, with that argument as its value, and an empty
    list or string is left out like an absent one. *)
Theorem search_leads_filters
    (user_id : str) (person_titles person_locations : option (list str))
    (q_keywords : option str)
    (organization_num_employees_ranges : option (list str)) (w : World) :
  exists r filters,
    wire (snd (tool (Call_search_leads user_id person_titles person_locations
                       q_keywords organization_num_employees_ranges) w))
      = r :: wire w /\
    req_method r = py "POST" /\
    req_url r = API_BASE ++ py "/leads/search" /\
    req_json r = Some (JDict [(py "filters", JDict filters)]) /\
    dict_get filters (py "person_titles")
      = match person_titles with
        | Some (t :: ts) => Some (json_of_strs (t :: ts))
        | _ => None
        end /\
    dict_get filters (py "person_locations")
      = match person_locations with
        | Some (t :: ts) => Some (json_of_strs (t :: ts))
        | _ => None
        end /\
    dict_get filters (py "q_keywords")
      = match q_keywords with
        | Some (a :: s) => Some (JStr (a :: s))
        | _ => None
        end /\
    dict_get filters (py "organization_num_employees_ranges")
      = match organization_num_employees_ranges with
        | Some (t :: ts) => Some (json_of_strs (t :: ts))
        | _ => None
        end /\
    NoDup (map fst filters) /\
    (length filters <= 4)%nat.
Proof.
  cbn [invoke]. unfold search_leads, bind. rewrite _api_closed_form.
  cbv zeta. do 2 eexists. split.
  { destruct (backend _) as [resp|e]; [destruct (settle resp)|]; reflexivity. }
  split; [reflexivity|]. split; [reflexivity|]. split; [reflexivity|].
  destruct person_titles as [[|t1 ts1]|], person_locations as [[|t2 ts2]|],
    q_keywords as [[|a s]|],
    organization_num_employees_ranges as [[|t4 ts4]|];
    (do 4 (split; [reflexivity|]);
     split; [apply (bool_decide_eq_true_1 _); reflexivity | vm_compute; lia]).
Qed.

(** X4. [list_leads] is a GET of [/leads/list] without a body; its query
    holds [temperature] when that argument is a non-empty string and is
    empty otherwise. *)
Theorem list_leads_query (user_id : str) (temperature : option str)
    (w : World) :
  exists r,
    wire (snd (tool (Call_list_leads user_id temperature) w)) = r :: wire w /\
    req_method r = py "GET" /\
    req_url r = API_BASE ++ py "/leads/list" /\
    req_json r = None /\
    req_params r =
      Some match temperature with
           | Some (a :: s) => {[py "temperature" := a :: s]}
           | _ => ∅
           end.
Proof.
  cbn [invoke]. unfold list_leads, bind. rewrite _api_closed_form.
  cbv zeta. eexists. split.
  { destruct (backend _) as [resp|e]; [destruct (settle resp)|]; reflexivity. }
  repeat split.
Qed.

(** X5. Every tool request goes to [API_BASE] followed by a path that
    starts with a slash, with [timeout=30], and is either a GET without a
    JSON body or a POST without query parameters. *)
Theorem tool_request_shape (c : Call) (w : World) :
  exists r path,
    wire (snd (tool c w)) = r :: wire w /\
    req_url r = API_BASE ++ 47 :: path /\
    req_timeout r = 30%Z /\
    (req_method r = py "GET" /\ req_json r = None
     \/ req_method r = py "POST" /\ req_params r = None).
Proof.
  destruct (tool_sends c w) as (m & p & kw & r & -> & Hm & _ & _ & Hw & _).
  do 2 eexists. rewrite Hw. split; [reflexivity|]. split; [reflexivity|].
  split; [reflexivity|]. exact Hm.
Qed.

(** X6. A lead identifier is spliced into the path as it is: [get_lead]
    requests [API_BASE/leads/<lead_id>] whatever the identifier holds, so
    with ["enrich/" + l] it requests the URL that [enrich_lead(l)] posts
    to. *)
Theorem lead_id_spliced_verbatim (lead_id : str) (w : World) :
  exists r r',
    wire (snd (tool (Call_get_lead lead_id) w)) = r :: wire w /\
    req_url r = API_BASE ++ py "/leads/" ++ lead_id /\
    wire (snd (tool (Call_enrich_lead lead_id) w)) = r' :: wire w /\
    req_url r' = API_BASE ++ py "/leads/enrich/" ++ lead_id /\
    exists r'',
      wire (snd (tool (Call_get_lead (py "enrich/" ++ lead_id)) w))
        = r'' :: wire w /\
      req_url r'' = req_url r' /\
      req_method r'' = py "GET" /\ req_method r' = py "POST".
Proof.
  cbn [invoke]. unfold get_lead, enrich_lead, bind.
  rewrite !_api_closed_form. cbv zeta. do 2 eexists.
  split.
  { destruct (backend _) as [resp|e]; [destruct (settle resp)|]; reflexivity. }
  split; [reflexivity|]. split.
  { destruct (backend _) as [resp|e]; [destruct (settle resp)|]; reflexivity. }
  split; [reflexivity|]. eexists. split.
  { destruct (backend _) as [resp|e]; [destruct (settle resp)|]; reflexivity. }
  repeat split.
Qed.



(** ** Runs *)

(** X8. The history of requests only grows: a run of [n] invocations
    puts [n] requests in front of those sent before, which stay as they
    were. *)
Theorem history_append_only (calls : list Call) (w : World) :
  exists sent,
    wire (serve calls w) = sent ++ wire w /\
    length sent = length calls.
Proof.
  revert w. induction calls as [|c rest IH]; intros w.
  - exists []. split; reflexivity.
  - rewrite serve_cons.
    destruct (tool_sends c w) as (m & p & kw & r & _ & _ & _ & _ & Hw & _).
    destruct (IH (snd (tool c w))) as (sent & Hsent & Hlen).
    exists (sent ++ [r]). rewrite Hsent, Hw. cbn [wire].
    rewrite <- app_assoc. split; [reflexivity|].
    rewrite length_app, Hlen. cbn [length]. lia.
Qed.

Lemma tool_world_any_backend (backend' : list Request -> Reply) (c : Call)
    (w : World) :
  snd (invoke API_BASE INTERNAL_KEY backend' c w) = snd (tool c w).
Proof.
  destruct c; cbn [invoke];
    unfold search_leads, enrich_lead, list_leads, get_lead,
      mark_do_not_contact, draft_message, send_email, send_sms, place_call,
      create_sequence, outreach_history, classify_reply, process_reply,
      score_lead, get_hot_lead_notifications, summarize_pipeline, bind;
    rewrite !_api_closed_form; cbv zeta;
    (destruct (backend' _) as [resp'|e']; [destruct (settle resp') as [v'|x']|]);
    (destruct (backend _) as [resp|e]; [destruct (settle resp) as [v|x]|]);
    reflexivity.
Qed.

(** X9. What the backend answers has no influence on the calls the
    bridge makes: the arguments of the calls of [requests.request] in a run
    and the session identity after it are the same whatever the replies to
    the earlier calls were. (Inside a call, the library does follow the
    redirects it is answered with.) *)
Theorem requests_independent_of_replies
    (backend' : list Request -> Reply) (calls : list Call) (w : World) :
  run API_BASE INTERNAL_KEY backend' calls w = serve calls w.
Proof.
  revert w. induction calls as [|c rest IH]; intros w; [reflexivity|].
  rewrite !serve_cons, tool_world_any_backend. apply IH.
Qed.

(** X10. The session identity is never the empty string, and neither is
    an [X-User-Id] header. *)
Theorem identity_never_empty (prior : list Call) (c : Call) :
  _session_user_id (serve prior boot) <> Some [] /\
  exists r,
    wire (snd (tool c (serve prior boot))) = r :: wire (serve prior boot) /\
    user_header r <> Some [].
Proof.
  split.
  - rewrite session_serve_boot. intros H.
    apply last_user_id_truthy in H. discriminate.
  - destruct (user_header_tool API_BASE INTERNAL_KEY backend c
                (serve prior boot)) as (r & Hw & Hh).
    exists r. split; [exact Hw|]. rewrite Hh.
    destruct (session_at_build _ _) as [[|a s]|]; discriminate.
Qed.

Lemma last_user_id_supplied (calls : list Call) (u : str) :
  last_user_id calls = Some u ->
  exists c, c ∈ calls /\ call_user_id c = Some u.
Proof.
  induction calls as [|c rest IH]; cbn [last_user_id]; [discriminate|].
  destruct (last_user_id rest) as [u'|].
  - intros [= ->]. destruct (IH eq_refl) as (c' & Hin & Hc').
    exists c'. split; [apply elem_of_cons; right; exact Hin|exact Hc'].
  - destruct (truthy (call_user_id c)); [|discriminate]. intros Hc.
    exists c. split; [apply elem_of_cons; left; reflexivity|exact Hc].
Qed.

(** X11. An identifier sent in [X-User-Id] is one that this invocation or
    an earlier one was given as its [user_id]: the bridge takes it from
    nowhere else. *)
Theorem user_header_was_supplied (prior : list Call) (c : Call) (u : str) :
  match head (wire (snd (tool c (serve prior boot)))) with
  | Some r => user_header r
  | None => None
  end = Some u ->
  exists c', c' ∈ prior ++ [c] /\ call_user_id c' = Some u.
Proof.
  destruct (user_header_reachable API_BASE INTERNAL_KEY backend prior c)
    as (r & Hw & Hh).
  rewrite Hw. cbn [head]. rewrite Hh. intros Hu.
  unfold session_at_build in Hu.
  destruct (truthy (call_user_id c)).
  - exists c. split; [|exact Hu]. apply elem_of_app. right.
    apply list_elem_of_singleton. reflexivity.
  - rewrite session_serve_boot in Hu.
    destruct (last_user_id_supplied prior u Hu) as (c' & Hin & Hc').
    exists c'. split; [|exact Hc']. apply elem_of_app. left. exact Hin.
Qed.

(** ** Outcomes *)

Lemma tool_returns_only_backend_json_aux (c : Call) (w : World) (text : str) :
  fst (tool c w) = Returned text -> exists v, text = json_dumps v.
Proof.
  destruct (tool_sends c w) as (m & p & kw & r & _ & _ & _ & _ & _ & Hout).
  rewrite Hout. destruct (backend (r :: wire w)) as [resp|e]; [|discriminate].
  destruct (settle resp) as [v|e']; [|discriminate].
  intros [= <-]. exists v. reflexivity.
Qed.

(** X12. A tool returns text only when the backend answered with a status
    outside 400-599 and a JSON body, and the text is [json.dumps] of that
    body; any failure of the bridge is the tool's failure. *)
Theorem tool_returns_only_backend_json (c : Call) (w : World) (text : str) :
  fst (tool c w) = Returned text ->
  exists resp v,
    backend (wire (snd (tool c w))) = Answered resp /\
    (400 <=? status_code resp)%Z && (status_code resp <? 600)%Z = false /\
    json_body resp = Some v /\
    text = json_dumps v.
Proof.
  destruct (tool_sends c w) as (m & p & kw & r & _ & _ & _ & _ & Hw & Hout).
  rewrite Hout, Hw. cbn [wire].
  destruct (backend (r :: wire w)) as [resp|e]; [|discriminate].
  unfold settle.
  destruct (400 <=? status_code resp)%Z eqn:H4,
           (status_code resp <? 500)%Z eqn:H5,
           (500 <=? status_code resp)%Z eqn:H5',
           (status_code resp <? 600)%Z eqn:H6; cbn [andb]; try discriminate;
    try lia;
    (destruct (json_body resp) as [v|] eqn:Hv; [|discriminate]);
    intros [= <-]; exists resp, v; (split; [reflexivity|]);
    (split; [rewrite ?H4, ?H6; reflexivity|]); (split; [exact Hv|reflexivity]).
Qed.


(** X14. The text a tool returns holds line feeds and printable ASCII
    only, whatever characters the backend's value holds. *)
Theorem tool_text_is_ascii (c : Call) (w : World) (text : str) :
  fst (tool c w) = Returned text ->
  Forall (fun ch => is_ascii_text ch = true) text.
Proof.
  intros H.
  destruct (tool_returns_only_backend_json_aux c w text H) as (v & ->).
  apply iterencode_ascii.
Qed.

(** X15. When the value the backend returned is what the decoder makes
    of a text of Unicode scalar values, the text the tool returns parses
    back to that value. *)
Theorem tool_text_reparses (c : Call) (w : World) (resp : Response)
    (body : str) (v : json) :
  backend (wire (snd (tool c w))) = Answered resp ->
  (200 <= status_code resp < 300)%Z ->
  Forall (fun ch => scalar ch = true) body ->
  json_loads body = Some v ->
  json_body resp = Some v ->
  exists text,
    fst (tool c w) = Returned text /\ json_loads text = Some v.
Proof.
  intros Hreply Hstatus Hbody Hloads Hv.
  destruct (tool_sends c w) as (m & p & kw & r & _ & _ & _ & _ & Hw & Hout).
  rewrite Hw in Hreply. cbn [wire] in Hreply.
  exists (json_dumps v). split.
  - rewrite Hout, Hreply. unfold settle.
    replace (400 <=? status_code resp)%Z with false by lia.
    replace (500 <=? status_code resp)%Z with false by lia.
    cbn [andb]. rewrite Hv. reflexivity.
  - apply json_loads_dumps. exact (json_loads_wf body v Hbody Hloads).
Qed.

End Coverage.

(** * Concrete runs of the further properties *)

(** X2 on a run: a caller of [_api] that passes its own [X-Internal-Key]
    and an [Accept] header sees the first replaced and the second kept. *)
Lemma api_caller_headers_witness :
  let h : gmap str str :=
    {[py "X-Internal-Key" := py "spoofed"; py "Accept" := py "text/html"]} in
  let kwargs := {| kw_headers := Some h; kw_params := None;
                   kw_json := None |} in
  exists r,
    wire (snd (_api dev_API_BASE dev_INTERNAL_KEY (answering resp_leads)
                 (py "GET") (py "/leads/l1") None kwargs boot))
      = r :: wire boot /\
    internal_key_header r = Some dev_INTERNAL_KEY /\
    user_header r =
      (if truthy (session_at_build None boot)
       then session_at_build None boot else h !! py "X-User-Id") /\
    (forall k,
        k <> py "X-Internal-Key" -> k <> py "X-User-Id" ->
        req_headers r !! k = h !! k).
Proof.
  apply (api_caller_headers dev_API_BASE dev_INTERNAL_KEY
           (answering resp_leads) (py "GET") (py "/leads/l1") None).
  reflexivity.
Defined.

(** X11 on a run: the [X-User-Id] that [enrich_lead] sends after
    [list_leads("u1")] was supplied by a call of the run. *)
Lemma user_header_was_supplied_witness :
  exists c',
    c' ∈ [Call_list_leads (py "u1") None] ++ [Call_enrich_lead (py "l1")] /\
    call_user_id c' = Some (py "u1").
Proof.
  apply (user_header_was_supplied dev_API_BASE dev_INTERNAL_KEY
           (answering resp_leads)
           [Call_list_leads (py "u1") None] (Call_enrich_lead (py "l1"))).
  reflexivity.
Defined.

(** X12 on a run: the text [list_leads("u1")] returns comes from a 200
    answer with a JSON body. *)
Lemma tool_returns_only_backend_json_witness :
  exists resp v,
    answering resp_leads
      (wire (snd (invoke dev_API_BASE dev_INTERNAL_KEY (answering resp_leads)
                    (Call_list_leads (py "u1") None) boot)))
      = Answered resp /\
    (400 <=? status_code resp)%Z && (status_code resp <? 600)%Z = false /\
    json_body resp = Some v /\
    json_dumps
      (JDict [(py "leads",
               JList [JDict [(py "id", JStr (py "l1"));
                             (py "score", JInt 82)]])])
      = json_dumps v.
Proof.
  apply (tool_returns_only_backend_json dev_API_BASE dev_INTERNAL_KEY
           (answering resp_leads) (Call_list_leads (py "u1") None) boot).
  reflexivity.
Defined.


(** X14 on a run: the text of [list_leads("u1")] is ASCII. *)
Lemma tool_text_is_ascii_witness :
  Forall (fun ch => is_ascii_text ch = true)
    (json_dumps
       (JDict [(py "leads",
                JList [JDict [(py "id", JStr (py "l1"));
                              (py "score", JInt 82)]])])).
Proof.
  apply (tool_text_is_ascii dev_API_BASE dev_INTERNAL_KEY
           (answering resp_leads) (Call_list_leads (py "u1") None) boot).
  reflexivity.
Defined.

(** X15 on a run: the backend's value is the decoding of the compact text
    [[1, 2]] and the tool's text parses back to it. *)
Lemma tool_text_reparses_witness :
  exists text,
    fst (invoke dev_API_BASE dev_INTERNAL_KEY (answering resp_pair)
           (Call_get_lead (py "l1")) boot) = Returned text /\
    json_loads text = Some (JList [JInt 1; JInt 2]).
Proof.
  apply (tool_text_reparses dev_API_BASE dev_INTERNAL_KEY
           (answering resp_pair) (Call_get_lead (py "l1")) boot resp_pair
           (py "[1, 2]")).
  - reflexivity.
  - cbn. lia.
  - repeat constructor.
  - reflexivity.
  - reflexivity.
Defined.
